(** * Axelrod cultural dissemination on a graph: a shallow embedding of
      [networkx/classes/axelrod.py] (class [Cultural_Network]).

    The Python methods are embedded as computations in a small
    state-and-exception monad over the object [self] and the standard
    output.  Random draws are made explicit parameters of the methods that
    draw them.  What numpy makes of the entries of two lists that it
    compares is a parameter of the methods that compare; the theorems hold
    for every such conversion, and the examples run the one of numpy. *)

From Stdlib Require Import String DecimalString.
From Stdlib Require Import List ZArith QArith Bool Lia Arith.
Import ListNotations.

Open Scope Z_scope.

(** ** Data model *)

(** Node identities (hashable Python objects); the simulation only ever
    compares them for equality, natural numbers stand for them. *)
Definition node := nat.

(** The attribute dictionary of one node, restricted to the two keys the
    class reads and writes: ["culture"] and ["color"].  [None] means that the
    key is absent.  A culture is held by value: [create_cultural_network]
    builds a fresh list for every node and [step] only ever writes into the
    list of one node, so no two nodes of a network share a list. *)
Record attr_dict : Type := mk_attr {
  culture : option (list Z);
  color : option nat
}.

(** Modelled from the spec: the graph substrate ([networkx.classes.graph.Graph],
    the parent class, not part of the source).  [nodes] is the node dictionary
    in insertion order, [adj] the adjacency dictionary; both are association
    lists that are read at the first entry of a key.  The three remaining
    fields are the attributes [Cultural_Network] adds; the two numbers are
    absent until [create_cultural_network] has set them. *)
Record Cultural_Network : Type := mk_net {
  nodes : list (node * attr_dict);
  adj : list (node * list node);
  culturized : bool;
  number_of_features : option Z;
  number_of_traits : option Z
}.

(** The object together with what has been printed so far, one string per
    printed line. *)
Record world : Type := mk_world {
  self : Cultural_Network;
  stdout : list string
}.

(** ** Exceptions and the monad *)

Inductive exn : Type :=
| KeyError | IndexError | ValueError | ZeroDivisionError
| AttributeError | TypeError | NetworkXError.

Inductive result (A : Type) : Type :=
| Ok (a : A)
| Raise (e : exn).
Arguments Ok {A} a.
Arguments Raise {A} e.

(** A method call: from the world before to the value returned or the
    exception raised, and the world after.  As in Python, what was mutated
    before an exception stays mutated. *)
Definition M (A : Type) : Type := world -> result A * world.

Definition ret {A} (a : A) : M A := fun w => (Ok a, w).

Definition raise {A} (e : exn) : M A := fun w => (Raise e, w).

Definition bind {A B} (m : M A) (f : A -> M B) : M B :=
  fun w => match m w with
           | (Ok a, w') => f a w'
           | (Raise e, w') => (Raise e, w')
           end.

Definition lift {A} (r : result A) : M A := fun w => (r, w).

Declare Scope py_scope.
Delimit Scope py_scope with py.
Notation "x <- m ;; k" := (bind m (fun x => k))
  (at level 61, m at next level, right associativity) : py_scope.
Notation "m ;;; k" := (bind m (fun _ => k))
  (at level 61, right associativity) : py_scope.
Open Scope py_scope.

Definition get_self : M Cultural_Network := fun w => (Ok (self w), w).

Definition put_self (g : Cultural_Network) : M unit :=
  fun w => (Ok tt, mk_world g (stdout w)).

(** [print(s)] *)
Definition print (s : string) : M unit :=
  fun w => (Ok tt, mk_world (self w) (stdout w ++ [s])).

(** [for x in l: body], the accumulator being the local variables the body
    updates. *)
Fixpoint for_each {A S} (l : list A) (body : A -> S -> M S) (s : S) : M S :=
  match l with
  | [] => ret s
  | x :: l' => s' <- body x s;; for_each l' body s'
  end.

(** ** The graph substrate *)

(** Modelled from the spec: reading and writing a dictionary of the graph
    substrate at a key; the first entry of the key counts. *)
Fixpoint lookup {A} (k : node) (d : list (node * A)) : option A :=
  match d with
  | [] => None
  | (k', v) :: d' => if Nat.eqb k k' then Some v else lookup k d'
  end.

Fixpoint update {A} (k : node) (v : A) (d : list (node * A)) : list (node * A) :=
  match d with
  | [] => []
  | (k', v') :: d' =>
      if Nat.eqb k k' then (k', v) :: d' else (k', v') :: update k v d'
  end.

(** Modelled from the spec: [list(self.nodes)] of the graph substrate, also
    what [for n in self] iterates over. *)
Definition node_list : M (list node) :=
  g <- get_self;; ret (map fst (nodes g)).

(** Modelled from the spec: [len(self)], the number of nodes. *)
Definition len_self : M Z :=
  g <- get_self;; ret (Z.of_nat (length (nodes g))).

(** Modelled from the spec: [self.nodes[n]], the attribute dictionary of a
    node of the graph substrate. *)
Definition node_attrs (n : node) : M attr_dict :=
  g <- get_self;;
  match lookup n (nodes g) with
  | Some d => ret d
  | None => raise KeyError
  end.

(** [self.nodes[n]["culture"]] *)
Definition get_culture (n : node) : M (list Z) :=
  d <- node_attrs n;;
  match culture d with
  | Some c => ret c
  | None => raise KeyError
  end.

(** Modelled from the spec: [list(self.neighbors(n))] of the graph
    substrate, which refuses a node that is not in the graph. *)
Definition neighbors (n : node) : M (list node) :=
  g <- get_self;;
  match lookup n (adj g) with
  | Some l => ret l
  | None => raise NetworkXError
  end.

(** [self.nodes[n]["culture"] = c] *)
Definition set_culture (n : node) (c : list Z) : M unit :=
  d <- node_attrs n;;
  g <- get_self;;
  put_self (mk_net (update n (mk_attr (Some c) (color d)) (nodes g))
                   (adj g) (culturized g)
                   (number_of_features g) (number_of_traits g)).

(** [self.nodes[n]["color"] = i] *)
Definition set_color (n : node) (i : nat) : M unit :=
  d <- node_attrs n;;
  g <- get_self;;
  put_self (mk_net (update n (mk_attr (culture d) (Some i)) (nodes g))
                   (adj g) (culturized g)
                   (number_of_features g) (number_of_traits g)).

(** [Cultural_Network(graph)]: the nodes and edges of the graph passed in,
    without culture. *)
Definition init (nodes_ : list (node * attr_dict))
    (adj_ : list (node * list node)) : Cultural_Network :=
  mk_net nodes_ adj_ false None None.

(** ** numpy and builtins *)

Fixpoint map2 {A B C} (f : A -> B -> C) (a : list A) (b : list B) : list C :=
  match a, b with
  | x :: a', y :: b' => f x y :: map2 f a' b'
  | _, _ => []
  end.

(** What numpy does to the entries of a list when it makes an array of it
    and compares that array with another one: [conv a b v] is the value that
    the entry [v] of the list [a] has once [np.array(a)] and [np.array(b)]
    have been brought to a common element type.  It depends on both lists:
    a list of Python integers becomes an array of 64-bit integers, of
    doubles, or of Python objects according to the sizes of its entries, and
    doubles round.  numpy is not part of the source; the development is
    parametric in it, and [numpy_conv] below is the instance the examples
    run. *)
Class Numpy : Type := { conv : list Z -> list Z -> Z -> Z }.

(** The values of [np.array(a)] in a comparison with [np.array(b)]. *)
Definition cast `{Numpy} (a b : list Z) : list Z := map (conv a b) a.

(** Element-wise comparison of two one-dimensional arrays, with numpy's
    broadcasting of an array of one element; shapes that cannot be broadcast
    together raise.  The shapes are those of the lists, the values compared
    are those numpy converted the entries to. *)
Definition elementwise `{Numpy} (f : Z -> Z -> bool) (a b : list Z)
  : result (list bool) :=
  if Nat.eqb (length a) (length b) then Ok (map2 f (cast a b) (cast b a))
  else if Nat.eqb (length a) 1 then Ok (map (f (hd 0 (cast a b))) (cast b a))
  else if Nat.eqb (length b) 1
       then Ok (map (fun x => f x (hd 0 (cast b a))) (cast a b))
  else Raise ValueError.

(** [np.array(a) == np.array(b)] *)
Definition np_eq `{Numpy} (a b : list Z) : result (list bool) :=
  elementwise Z.eqb a b.

(** [np.array(a) != np.array(b)] *)
Definition np_ne `{Numpy} (a b : list Z) : result (list bool) :=
  elementwise (fun x y => negb (Z.eqb x y)) a b.

(** *** numpy on lists of Python integers

    The element type of [np.array(l)]: every entry is typed by its size (a
    C long when it fits, an unsigned 64-bit integer when it is too large for
    that, a Python object beyond), and the array takes the common type,
    which for signed together with unsigned 64-bit integers is the double. *)
Inductive dtype : Type := int64 | uint64 | float64 | object_.

Definition fits_int64 (v : Z) : bool := (- 2 ^ 63 <=? v) && (v <? 2 ^ 63).

Definition fits_uint64 (v : Z) : bool := (2 ^ 63 <=? v) && (v <? 2 ^ 64).

Definition dtype_of (l : list Z) : dtype :=
  if forallb fits_int64 l then int64
  else if forallb fits_uint64 l then uint64
  else if forallb (fun v => fits_int64 v || fits_uint64 v) l then float64
  else object_.

(** The double nearest to an integer (ties to even), as an integer: 53
    significant bits are kept. *)
Definition round_float64 (v : Z) : Z :=
  let m := Z.abs v in
  let e := Z.log2 m - 52 in
  if e <=? 0 then v
  else
    let q := m / 2 ^ e in
    let r := m mod 2 ^ e in
    let half := 2 ^ (e - 1) in
    let q' := if r <? half then q
              else if half <? r then q + 1
              else if Z.even q then q else q + 1 in
    Z.sgn v * (q' * 2 ^ e).

(** An array of doubles holds rounded values from its creation on; an
    array of 64-bit integers is rounded when it meets an array of doubles;
    arrays of the same integer type, signed against unsigned 64-bit
    integers (numpy 1.25 and later) and arrays of objects compare the
    integers themselves. *)
Definition numpy_conv (a b : list Z) (v : Z) : Z :=
  match dtype_of a, dtype_of b with
  | float64, _ => round_float64 v
  | object_, _ => v
  | _, float64 => round_float64 v
  | _, _ => v
  end.

#[global] Instance numpy : Numpy := {| conv := numpy_conv |}.

(** [sum(arr)] of an array of booleans. *)
Fixpoint py_sum (l : list bool) : Z :=
  match l with
  | [] => 0
  | b :: l' => Z.b2z b + py_sum l'
  end.

Definition not_culturized_msg : string :=
  "You must add culture to the network. Use the 'create_cultural_network' method.".

(** ** [common_features] *)

Definition common_features `{Numpy} (pos1 pos2 : node) : M (option Z) :=
  g <- get_self;;
  if culturized g then
    c1 <- get_culture pos1;;
    c2 <- get_culture pos2;;
    com_array <- lift (np_eq c1 c2);;
    ret (Some (py_sum com_array))
  else
    print not_culturized_msg;;;
    ret None.

(** ** Random sources

    [random.randint], [random.choice] and [np.random.binomial] are modelled
    as functions of the raw value the generator delivers, so that a theorem
    quantified over the raw values speaks of every outcome of a draw. *)

(** [random.randint(a, b)]: an integer of the inclusive range, none when the
    range is empty. *)
Definition randint (a b : Z) (raw : Z) : result Z :=
  if a <=? b then Ok (a + raw mod (b - a + 1)) else Raise ValueError.

(** [random.choice(seq)] *)
Definition random_choice {A} (raw : nat) (l : list A) : result A :=
  match l with
  | [] => Raise IndexError
  | x :: _ => Ok (nth (raw mod length l) l x)
  end.

(** The uniform sample of [0, 1) that the generator makes of 53 raw bits. *)
Definition unit_sample (raw : N) : Q :=
  Qmake (Z.of_N (raw mod 2 ^ 53)) (2 ^ 53).

(** [np.random.binomial(1, p)]: one Bernoulli trial.  [p] outside of [0, 1]
    is refused.  The trial succeeds when the uniform sample falls below [p]:
    an event of probability [p], which never happens when [p] is 0 and
    always when [p] is 1. *)
Definition binomial1 (raw : N) (p : Q) : result Z :=
  if Qle_bool 0 p && Qle_bool p 1 then
    Ok (if Qle_bool p (unit_sample raw) then 0 else 1)
  else Raise ValueError.

(** The four draws of one call of [step], in the order of the source. *)
Record draws : Type := mk_draws {
  agent_draw : nat;
  neighbour_draw : nat;
  uniform_draw : N;
  feature_draw : nat
}.

(** ** More builtins *)

(** [range(n)] *)
Definition py_range (n : Z) : list nat := seq 0 (Z.to_nat n).

(** A list comprehension [[f(x) for x in l]]. *)
Fixpoint comprehension {A B} (f : A -> M B) (l : list A) : M (list B) :=
  match l with
  | [] => ret []
  | x :: l' => y <- f x;; ys <- comprehension f l';; ret (y :: ys)
  end.

(** [l[i]] *)
Definition list_get {A} (l : list A) (i : nat) : result A :=
  match nth_error l i with
  | Some x => Ok x
  | None => Raise IndexError
  end.

Fixpoint replace_nth {A} (l : list A) (i : nat) (v : A) : list A :=
  match l, i with
  | [], _ => []
  | _ :: l', O => v :: l'
  | x :: l', S i' => x :: replace_nth l' i' v
  end.

(** [l[i] = v] *)
Definition list_set {A} (l : list A) (i : nat) (v : A) : result (list A) :=
  if Nat.ltb i (length l) then Ok (replace_nth l i v) else Raise IndexError.

(** The indices at which an array of booleans is true:
    [for idx, b in enumerate(arr): if b: disagreements.append(idx)]. *)
Fixpoint true_indices (idx : nat) (arr : list bool) : list nat :=
  match arr with
  | [] => []
  | b :: arr' =>
      if b then idx :: true_indices (S idx) arr' else true_indices (S idx) arr'
  end.

(** [a / b] on integers (true division), as an exact rational. *)
Definition truediv (a b : Z) : result Q :=
  if b =? 0 then Raise ZeroDivisionError
  else Ok (Qdiv (inject_Z a) (inject_Z b)).

(** [l1 == l2] on lists of integers. *)
Fixpoint list_eqb (l1 l2 : list Z) : bool :=
  match l1, l2 with
  | [], [] => true
  | x :: l1', y :: l2' => Z.eqb x y && list_eqb l1' l2'
  | _, _ => false
  end.

(** [l.index(x)] *)
Fixpoint list_index (x : list Z) (l : list (list Z)) : result nat :=
  match l with
  | [] => Raise ValueError
  | y :: l' =>
      if list_eqb y x then Ok O
      else match list_index x l' with
           | Ok i => Ok (S i)
           | Raise e => Raise e
           end
  end.

(** [max(l)] *)
Definition py_max (l : list Z) : result Z :=
  match l with
  | [] => Raise ValueError
  | x :: l' => Ok (fold_left Z.max l' x)
  end.

(** [x in l] where [x] is an integer or [None]. *)
Definition py_in (x : option Z) (l : list Z) : bool :=
  match x with
  | Some v => existsb (Z.eqb v) l
  | None => false
  end.

(** [self.number_of_features], [self.number_of_traits] *)
Definition get_number_of_features : M Z :=
  g <- get_self;;
  match number_of_features g with
  | Some v => ret v
  | None => raise AttributeError
  end.

Definition get_number_of_traits : M Z :=
  g <- get_self;;
  match number_of_traits g with
  | Some v => ret v
  | None => raise AttributeError
  end.

Definition string_of_nat (n : nat) : string :=
  NilEmpty.string_of_uint (Nat.to_uint n).

(** ** [create_cultural_network]

    [rand k] is the raw value behind the [k]-th call of [random.randint]. *)
Definition create_cultural_network (rand : nat -> Z)
    (number_of_features' number_of_traits' : Z) : M Cultural_Network :=
  g <- get_self;;
  put_self (mk_net (nodes g) (adj g) (culturized g)
                   (Some number_of_features') (number_of_traits g));;;
  g <- get_self;;
  put_self (mk_net (nodes g) (adj g) (culturized g)
                   (number_of_features g) (Some number_of_traits'));;;
  n <- len_self;;
  cultures <-
    comprehension (fun node_ =>
      nf <- get_number_of_features;;
      comprehension (fun feature =>
        nt <- get_number_of_traits;;
        lift (randint 1 nt (rand (node_ * Z.to_nat nf + feature)%nat)))
        (py_range nf))
      (py_range n);;
  ns <- node_list;;
  for_each (combine ns cultures)
    (fun '(index, culture_) _ => set_culture index culture_) tt;;;
  g <- get_self;;
  put_self (mk_net (nodes g) (adj g) true
                   (number_of_features g) (number_of_traits g));;;
  get_self.

(** ** [step] *)

Definition step `{Numpy} (rnd : draws) (verbose : bool)
  : M Cultural_Network :=
  g <- get_self;;
  (if culturized g then
     ns <- node_list;;
     agent_number <- lift (random_choice (agent_draw rnd) ns);;
     neighbours <- neighbors agent_number;;
     neighbour_number <- lift (random_choice (neighbour_draw rnd) neighbours);;
     agent_culture <- get_culture agent_number;;
     neighbour_culture <- get_culture neighbour_number;;
     differ <- lift (np_ne agent_culture neighbour_culture);;
     let disagreements := true_indices 0 differ in
     cf <- common_features agent_number neighbour_number;;
     probability <-
       match cf with
       | Some c => lift (truediv c (Z.of_nat (length agent_culture)))
       | None => raise TypeError
       end;;
     exchange <-
       (if Nat.ltb 0 (length disagreements) then
          b <- lift (binomial1 (uniform_draw rnd) probability);;
          ret (negb (b =? 0))
        else ret false);;
     if exchange then
       feature_to_change_idx <-
         lift (random_choice (feature_draw rnd) disagreements);;
       (if verbose then
          print ("agent_number:  " ++ string_of_nat agent_number);;;
          print ("neighbour_number:  " ++ string_of_nat neighbour_number);;;
          print ("feature_to_change_idx:  "
                 ++ string_of_nat feature_to_change_idx)
        else ret tt);;;
       source <- get_culture agent_number;;
       v <- lift (list_get source feature_to_change_idx);;
       target <- get_culture neighbour_number;;
       target' <- lift (list_set target feature_to_change_idx v);;
       set_culture neighbour_number target'
     else ret tt
   else ret tt);;;
  get_self.

(** ** [network_cultures]

    [set_iter history] is the order in which a Python set iterates after the
    elements of [history] were added to it one after the other; the theorems
    assume of it only that it lists every added element exactly once. *)
Definition network_cultures (set_iter : list (list Z) -> list (list Z))
  : M (option (list (list Z) * Z)) :=
  g <- get_self;;
  if culturized g then
    ns <- node_list;;
    culture_set <-
      for_each ns
        (fun node_number added =>
           c <- get_culture node_number;; ret (added ++ [c])) [];;
    let culture_list := set_iter culture_set in
    let cantidad_culturas := Z.of_nat (length (set_iter culture_set)) in
    ret (Some (culture_list, cantidad_culturas))
  else ret None.

(** ** [cultural_sizes_and_max] *)

Definition cultural_sizes_and_max (set_iter : list (list Z) -> list (list Z))
  : M (option (list Z * Z)) :=
  g <- get_self;;
  if culturized g then
    nc <- network_cultures set_iter;;
    match nc with
    | None => raise TypeError
    | Some (culture_list, _) =>
        culture_sizes <-
          for_each culture_list
            (fun culture_ culture_sizes =>
               ns <- node_list;;
               culture_size <-
                 for_each ns
                   (fun node_number culture_size =>
                      c <- get_culture node_number;;
                      ret (if list_eqb c culture_ then culture_size + 1
                           else culture_size)) 0;;
               ret (culture_sizes ++ [culture_size])) [];;
        max_culture_size <- lift (py_max culture_sizes);;
        ret (Some (culture_sizes, max_culture_size))
    end
  else ret None.

(** ** [colorea_nodos] *)

Definition colorea_nodos (set_iter : list (list Z) -> list (list Z))
  : M (option (list nat)) :=
  g <- get_self;;
  if culturized g then
    ns <- node_list;;
    color_list <-
      for_each ns
        (fun node_number color_list =>
           culture_ <- get_culture node_number;;
           nc <- network_cultures set_iter;;
           match nc with
           | None => raise TypeError
           | Some (culture_list, _) =>
               index_color <- lift (list_index culture_ culture_list);;
               set_color node_number index_color;;;
               ret (color_list ++ [index_color])
           end) [];;
    ret (Some color_list)
  else ret None.

(** ** [fixed_point] *)

Definition fixed_point `{Numpy} : M (option bool) :=
  g <- get_self;;
  if culturized g then
    ns <- node_list;;
    check_network <-
      for_each ns
        (fun node_number check_network =>
           culture_ <- get_culture node_number;;
           neighbours_numbers <- neighbors node_number;;
           check_node <-
             for_each neighbours_numbers
               (fun neighbour_number check_node =>
                  neighbour_culture <- get_culture neighbour_number;;
                  cf <- common_features node_number neighbour_number;;
                  nf <- get_number_of_features;;
                  ret (check_node + Z.b2z (py_in cf [0; nf]))) 0;;
           again <- neighbors node_number;;
           ret (check_network
                + Z.b2z (check_node =? Z.of_nat (length again)))) 0;;
    n <- len_self;;
    ret (Some (check_network =? n))
  else ret None.

(** ** [list_cultures] *)

(** [str(z)] and [str(l)] for an integer and a list of integers. *)
Definition string_of_Z (z : Z) : string :=
  NilEmpty.string_of_int (Z.to_int z).

Definition string_of_list (l : list Z) : string :=
  ("[" ++ String.concat ", " (map string_of_Z l) ++ "]")%string.

(** What [print(elem, ": ", culture)] writes. *)
Definition culture_line (elem : node) (c : list Z) : string :=
  (string_of_nat elem ++ " :  " ++ string_of_list c)%string.

Definition list_cultures : M unit :=
  g <- get_self;;
  if culturized g then
    ns <- node_list;;
    for_each ns
      (fun elem _ =>
         c <- get_culture elem;;
         print (culture_line elem c)) tt
  else
    print not_culturized_msg.

(** * Specification vocabulary *)

(** The identities of the nodes, in iteration order. *)
Definition node_ids (g : Cultural_Network) : list node := map fst (nodes g).

(** The culture vector and the colour a node carries, if any. *)
Definition culture_of (g : Cultural_Network) (n : node) : option (list Z) :=
  match lookup n (nodes g) with
  | Some d => culture d
  | None => None
  end.

Definition color_of (g : Cultural_Network) (n : node) : option nat :=
  match lookup n (nodes g) with
  | Some d => color d
  | None => None
  end.

(** The neighbour set [N(n)]. *)
Definition neighbours_of (g : Cultural_Network) (n : node) : list node :=
  match lookup n (adj g) with
  | Some l => l
  | None => []
  end.

(** Every node carries a culture vector. *)
Definition cultured (g : Cultural_Network) : Prop :=
  forall n, In n (node_ids g) -> exists c, culture_of g n = Some c.

(** The invariants of the data model: both numbers are set, and every node
    carries a culture vector of [nf] entries, each within [1, nt]. *)
Definition culture_invariants (g : Cultural_Network) (nf nt : Z) : Prop :=
  number_of_features g = Some nf /\
  number_of_traits g = Some nt /\
  forall n, In n (node_ids g) ->
    exists c, culture_of g n = Some c /\
              Z.of_nat (length c) = nf /\
              Forall (fun t => 1 <= t <= nt) c.

(** What the graph substrate maintains: every node has an adjacency entry,
    and every neighbour is a node of the graph. *)
Definition graph_ok (g : Cultural_Network) : Prop :=
  forall n, In n (node_ids g) ->
    exists l, lookup n (adj g) = Some l /\ incl l (node_ids g).

(** The network [g] after the culture of [n] was replaced by [c]. *)
Definition with_culture (g : Cultural_Network) (n : node) (c : list Z)
  : Cultural_Network :=
  match lookup n (nodes g) with
  | Some d =>
      mk_net (update n (mk_attr (Some c) (color d)) (nodes g))
             (adj g) (culturized g) (number_of_features g) (number_of_traits g)
  | None => g
  end.

(** The count [common_features] computes on a culturized network, when it
    computes one. *)
Definition common_count `{Numpy} (g : Cultural_Network) (n m : node)
  : option Z :=
  match culture_of g n, culture_of g m with
  | Some a, Some b =>
      match np_eq a b with
      | Ok arr => Some (py_sum arr)
      | Raise _ => None
      end
  | _, _ => None
  end.

(** The test [fixed_point] applies to a node and one of its neighbours, and
    its conjunction over all nodes and all their neighbours. *)
Definition stable_pair `{Numpy} (g : Cultural_Network) (nf : Z) (n m : node)
  : bool :=
  py_in (common_count g n m) [0; nf].

Definition stable `{Numpy} (g : Cultural_Network) (nf : Z) : bool :=
  forallb (fun n => forallb (stable_pair g nf n) (neighbours_of g n))
          (node_ids g).

(** The culture vector of a node that carries one. *)
Definition vector_of (g : Cultural_Network) (n : node) : list Z :=
  match culture_of g n with
  | Some c => c
  | None => []
  end.

(** The culture vectors of the nodes, in iteration order. *)
Definition node_cultures (g : Cultural_Network) : list (list Z) :=
  map (vector_of g) (node_ids g).

(** The number of nodes that hold exactly the vector [c]. *)
Definition cluster_size (g : Cultural_Network) (c : list Z) : Z :=
  Z.of_nat (length (filter (fun c' => list_eqb c' c) (node_cultures g))).

(** The sum of a list of integers. *)
Definition total (l : list Z) : Z := fold_right Z.add 0 l.

(** The first position of [c] in [l] ([length l] when there is none). *)
Fixpoint position (c : list Z) (l : list (list Z)) : nat :=
  match l with
  | [] => O
  | y :: l' => if list_eqb y c then O else S (position c l')
  end.

(** The network [g] after the colour of [n] was set to [i]. *)
Definition with_color (g : Cultural_Network) (n : node) (i : nat)
  : Cultural_Network :=
  match lookup n (nodes g) with
  | Some d =>
      mk_net (update n (mk_attr (culture d) (Some i)) (nodes g))
             (adj g) (culturized g) (number_of_features g) (number_of_traits g)
  | None => g
  end.

(** An iteration order for sets that the examples use: the order of last
    insertion. *)
Definition last_seen (history : list (list Z)) : list (list Z) :=
  nodup (list_eq_dec Z.eq_dec) history.

(** A call reports the missing initialisation when it prints the message
    that [common_features] prints. *)
Definition reports_not_culturized {A} (m : M A) (w : world) : Prop :=
  stdout (snd (m w)) = stdout w ++ [not_culturized_msg].

(** ** Example networks *)

Definition with_vector (c : list Z) : attr_dict := mk_attr (Some c) None.

(** Two connected nodes that differ in one of three features. *)
Definition two_nodes : Cultural_Network :=
  mk_net [(0%nat, with_vector [1; 2; 3]); (1%nat, with_vector [1; 2; 4])]
         [(0%nat, [1%nat]); (1%nat, [0%nat])]
         true (Some 3) (Some 5).

(** A path of three nodes: the first two agree on everything, the last two
    on nothing. *)
Definition settled : Cultural_Network :=
  mk_net [(0%nat, with_vector [1; 2; 3]); (1%nat, with_vector [1; 2; 3]);
          (2%nat, with_vector [3; 1; 2])]
         [(0%nat, [1%nat]); (1%nat, [0%nat; 2%nat]); (2%nat, [1%nat])]
         true (Some 3) (Some 5).

(** Two connected nodes before [create_cultural_network] was called. *)
Definition bare : Cultural_Network :=
  init [(0%nat, mk_attr None None); (1%nat, mk_attr None None)]
       [(0%nat, [1%nat]); (1%nat, [0%nat])].

(** One node without neighbours, and the network without nodes. *)
Definition lonely : Cultural_Network :=
  mk_net [(0%nat, with_vector [1])] [(0%nat, [])] true (Some 1) (Some 2).

Definition nobody : Cultural_Network := mk_net [] [] true (Some 1) (Some 1).

(** Two connected nodes with one feature, on which they disagree. *)
Definition strangers : Cultural_Network :=
  mk_net [(0%nat, with_vector [1]); (1%nat, with_vector [2])]
         [(0%nat, [1%nat]); (1%nat, [0%nat])]
         true (Some 1) (Some 2).

(** The two nodes of [two_nodes] and a third one, added after the cultures
    were created. *)
Definition newcomer : Cultural_Network :=
  mk_net [(0%nat, with_vector [1; 2; 3]); (1%nat, with_vector [1; 2; 4]);
          (2%nat, mk_attr None None)]
         [(0%nat, [1%nat]); (1%nat, [0%nat]); (2%nat, [])]
         true (Some 3) (Some 5).

(** Two connected nodes with the same culture. *)
Definition agreed : Cultural_Network :=
  mk_net [(0%nat, with_vector [1; 2; 3]); (1%nat, with_vector [1; 2; 3])]
         [(0%nat, [1%nat]); (1%nat, [0%nat])]
         true (Some 3) (Some 5).

(** numpy compares arrays of 64-bit signed integers by the integers
    themselves. *)
Definition exact_on_int64 `{Numpy} : Prop :=
  forall a b v,
    forallb fits_int64 a = true -> forallb fits_int64 b = true ->
    conv a b v = v.

(** Two connected nodes with two features and traits beyond the 64-bit
    signed integers: each list mixes a small and a large entry, so that both
    arrays are arrays of doubles, in which the two large entries coincide. *)
Definition wide : Cultural_Network :=
  mk_net [(0%nat, with_vector [1; 2 ^ 63]);
          (1%nat, with_vector [1; 2 ^ 63 + 1])]
         [(0%nat, [1%nat]); (1%nat, [0%nat])]
         true (Some 2) (Some (2 ^ 63 + 1)).

(** A call that leaves the world [w] it is made in as it is. *)
Definition keeps {A} (w : world) (m : M A) : Prop := snd (m w) = w.

(** * Theorems *)

(** ** The methods at work *)

Example step_copies_one_feature :
  step (mk_draws 0 0 0 0) true (mk_world two_nodes [])
  = (Ok (with_culture two_nodes 1%nat [1; 2; 3]),
     mk_world (with_culture two_nodes 1%nat [1; 2; 3])
              ["agent_number:  0"; "neighbour_number:  1";
               "feature_to_change_idx:  2"]%string).
Proof. reflexivity. Qed.

Example step_other_direction :
  self (snd (step (mk_draws 1 0 0 0) false (mk_world two_nodes [])))
  = with_culture two_nodes 0%nat [1; 2; 4].
Proof. reflexivity. Qed.

Example step_without_neighbour :
  step (mk_draws 0 0 0 0) false (mk_world lonely [])
  = (Raise IndexError, mk_world lonely []).
Proof. reflexivity. Qed.

Example fixed_point_settled :
  fixed_point (mk_world settled []) = (Ok (Some true), mk_world settled []).
Proof. reflexivity. Qed.

Example fixed_point_two_nodes :
  fixed_point (mk_world two_nodes [])
  = (Ok (Some false), mk_world two_nodes []).
Proof. reflexivity. Qed.

Example fixed_point_strangers :
  fixed_point (mk_world strangers [])
  = (Ok (Some true), mk_world strangers []).
Proof. reflexivity. Qed.

Example sizes_of_settled :
  fst (cultural_sizes_and_max last_seen (mk_world settled []))
  = Ok (Some ([2; 1], 2)).
Proof. reflexivity. Qed.

Example sizes_of_nobody :
  cultural_sizes_and_max last_seen (mk_world nobody [])
  = (Raise ValueError, mk_world nobody []).
Proof. reflexivity. Qed.

Example colours_of_settled :
  fst (colorea_nodos last_seen (mk_world settled []))
  = Ok (Some [0; 0; 1]%nat).
Proof. reflexivity. Qed.

Example create_on_bare :
  node_cultures
    (self (snd (create_cultural_network (fun k => Z.of_nat k) 2 3
                  (mk_world bare []))))
  = [[1; 2]; [3; 1]].
Proof. reflexivity. Qed.

Example create_without_traits :
  create_cultural_network (fun k => Z.of_nat k) 2 0 (mk_world bare [])
  = (Raise ValueError,
     mk_world (mk_net (nodes bare) (adj bare) false (Some 2) (Some 0)) []).
Proof. reflexivity. Qed.

Example common_features_broadcast :
  np_eq [2] [1; 2; 2] = Ok [false; true; true] /\
  np_eq [1; 2] [1; 2; 3] = Raise ValueError.
Proof. split; reflexivity. Qed.

(** Beyond 2^53 doubles round, and a list that mixes entries below and
    above 2^63 becomes an array of doubles: in [wide] the entries 2^63 and
    2^63 + 1 coincide, the two nodes agree on both features, the network is
    a fixed point and [step] leaves it alone. *)
Example doubles_round :
  round_float64 (2 ^ 53 + 1) = 2 ^ 53 /\
  round_float64 (2 ^ 53 + 3) = 2 ^ 53 + 4 /\
  round_float64 (2 ^ 63 + 1) = 2 ^ 63 /\
  round_float64 (- (2 ^ 63 - 1)) = - 2 ^ 63 /\
  round_float64 12345 = 12345.
Proof. repeat split. Qed.

Example array_types :
  dtype_of [1; 2; 3] = int64 /\
  dtype_of [2 ^ 63; 2 ^ 63 + 1] = uint64 /\
  dtype_of [1; 2 ^ 63] = float64 /\
  dtype_of [1; 2 ^ 64] = object_.
Proof. repeat split. Qed.

Example common_features_wide :
  fst (common_features 0%nat 1%nat (mk_world wide [])) = Ok (Some 2) /\
  np_eq [2 ^ 63; 2 ^ 63 + 1] [2 ^ 63 + 1; 2 ^ 63] = Ok [false; false].
Proof. split; reflexivity. Qed.

Example fixed_point_wide :
  fixed_point (mk_world wide []) = (Ok (Some true), mk_world wide []).
Proof. reflexivity. Qed.

Example step_wide :
  step (mk_draws 0 0 0 0) false (mk_world wide [])
  = (Ok wide, mk_world wide []).
Proof. reflexivity. Qed.

Section WithNumpy.

(** Everything below holds whatever numpy does to the entries it compares. *)
Context `{NP : Numpy}.

(** ** Running the monad *)

Ltac run := unfold bind, ret, raise, lift, get_self, put_self, print; simpl.

Lemma bind_ok {A B} (m : M A) (f : A -> M B) w a w' :
  m w = (Ok a, w') -> bind m f w = f a w'.
Proof. intros H. unfold bind. now rewrite H. Qed.

Lemma bind_get_self {B} (f : Cultural_Network -> M B) w :
  bind get_self f w = f (self w) w.
Proof. reflexivity. Qed.

Lemma get_culture_run n w :
  get_culture n w =
  (match culture_of (self w) n with
   | Some c => Ok c
   | None => Raise KeyError
   end, w).
Proof.
  unfold get_culture, node_attrs, culture_of. run.
  destruct (lookup n (nodes (self w))) as [d|]; simpl; [|reflexivity].
  destruct (culture d); reflexivity.
Qed.

Lemma get_culture_some n w c :
  culture_of (self w) n = Some c -> get_culture n w = (Ok c, w).
Proof. intros H. now rewrite get_culture_run, H. Qed.

Lemma node_list_run w : node_list w = (Ok (node_ids (self w)), w).
Proof. reflexivity. Qed.

Lemma len_self_run w :
  len_self w = (Ok (Z.of_nat (length (nodes (self w)))), w).
Proof. reflexivity. Qed.

Lemma neighbors_run n w :
  neighbors n w =
  (match lookup n (adj (self w)) with
   | Some l => Ok l
   | None => Raise NetworkXError
   end, w).
Proof.
  unfold neighbors. run. destruct (lookup n (adj (self w))); reflexivity.
Qed.

Lemma get_number_of_features_run w v :
  number_of_features (self w) = Some v ->
  get_number_of_features w = (Ok v, w).
Proof.
  intros H. unfold get_number_of_features. now rewrite bind_get_self, H.
Qed.

Lemma get_number_of_traits_run w v :
  number_of_traits (self w) = Some v ->
  get_number_of_traits w = (Ok v, w).
Proof.
  intros H. unfold get_number_of_traits. now rewrite bind_get_self, H.
Qed.

(** A loop whose body only reads and never raises is a fold. *)
Lemma for_each_pure {A S} (l : list A) (body : A -> S -> M S)
      (f : S -> A -> S) w :
  (forall x s, In x l -> body x s w = (Ok (f s x), w)) ->
  forall s, for_each l body s w = (Ok (fold_left f l s), w).
Proof.
  induction l as [|x l IH]; intros Hb s; simpl.
  - reflexivity.
  - rewrite (bind_ok _ _ _ _ _ (Hb x s (or_introl eq_refl))).
    apply IH. intros y s' Hy. apply Hb. now right.
Qed.

(** ** Element-wise comparison *)

Lemma map2_length {A B C} (f : A -> B -> C) a b :
  length a = length b -> length (map2 f a b) = length a.
Proof.
  revert b. induction a as [|x a IH]; intros [|y b] H; simpl in *;
    try discriminate; auto.
Qed.

Lemma map2_sym (f : Z -> Z -> bool) a b :
  (forall x y, f x y = f y x) -> map2 f a b = map2 f b a.
Proof.
  intros Hf. revert b.
  induction a as [|x a IH]; intros [|y b]; simpl; try reflexivity.
  now rewrite Hf, IH.
Qed.

Lemma elementwise_sym (f : Z -> Z -> bool) a b :
  (forall x y, f x y = f y x) -> elementwise f a b = elementwise f b a.
Proof.
  intros Hf. unfold elementwise.
  rewrite (Nat.eqb_sym (length b) (length a)).
  destruct (Nat.eqb (length a) (length b)) eqn:E.
  - now rewrite (map2_sym f (cast a b) (cast b a) Hf).
  - destruct (Nat.eqb (length a) 1) eqn:Ea, (Nat.eqb (length b) 1) eqn:Eb;
      try reflexivity.
    + apply Nat.eqb_eq in Ea, Eb. apply Nat.eqb_neq in E. congruence.
    + f_equal. apply map_ext. intros. apply Hf.
    + f_equal. apply map_ext. intros. apply Hf.
Qed.

Lemma np_eq_sym a b : np_eq a b = np_eq b a.
Proof. apply elementwise_sym. apply Z.eqb_sym. Qed.

Lemma cast_length a b : length (cast a b) = length a.
Proof. apply length_map. Qed.

Lemma np_eq_same_length a b :
  length a = length b -> np_eq a b = Ok (map2 Z.eqb (cast a b) (cast b a)).
Proof.
  intros H. unfold np_eq, elementwise. now rewrite H, Nat.eqb_refl.
Qed.

Lemma common_features_run pos1 pos2 w :
  culturized (self w) = true ->
  common_features pos1 pos2 w =
  (match culture_of (self w) pos1, culture_of (self w) pos2 with
   | Some c1, Some c2 =>
       match np_eq c1 c2 with
       | Ok arr => Ok (Some (py_sum arr))
       | Raise e => Raise e
       end
   | _, _ => Raise KeyError
   end, w).
Proof.
  intros Hc. unfold common_features.
  rewrite bind_get_self, Hc.
  unfold bind at 1. rewrite get_culture_run.
  destruct (culture_of (self w) pos1) as [c1|]; [|reflexivity].
  unfold bind at 1. rewrite get_culture_run.
  destruct (culture_of (self w) pos2) as [c2|]; [|reflexivity].
  run. destruct (np_eq c1 c2); reflexivity.
Qed.

(** C8.  [common_features] is symmetric in its two arguments: called on the
    same network with the two node identities exchanged it returns the same
    count (and, where it does not return a count, fails or reports in the
    same way). *)
Theorem common_features_symmetric (w : world) (a b : node) :
  common_features a b w = common_features b a w.
Proof.
  destruct (culturized (self w)) eqn:Hc.
  - rewrite !common_features_run by assumption.
    destruct (culture_of (self w) a) as [ca|], (culture_of (self w) b) as [cb|];
      try reflexivity.
    now rewrite (np_eq_sym ca cb).
  - unfold common_features. now rewrite !bind_get_self, Hc.
Qed.

(** ** Counting loops *)

Lemma fold_add_b2z {A} (p : A -> bool) (l : list A) (s : Z) :
  fold_left (fun s x => s + Z.b2z (p x)) l s
  = s + Z.of_nat (length (filter p l)).
Proof.
  revert s. induction l as [|x l IH]; intros s; simpl.
  - lia.
  - rewrite IH. destruct (p x); simpl length; simpl Z.b2z; lia.
Qed.

Lemma filter_all {A} (p : A -> bool) (l : list A) :
  (length (filter p l) = length l) <-> forallb p l = true.
Proof.
  induction l as [|x l IH]; simpl.
  - tauto.
  - pose proof (filter_length_le p l) as Hle.
    destruct (p x); simpl.
    + rewrite <- IH. lia.
    + split; [lia | discriminate].
Qed.

Lemma count_eqb_all {A} (p : A -> bool) (l : list A) :
  (0 + Z.of_nat (length (filter p l)) =? Z.of_nat (length l)) = forallb p l.
Proof.
  destruct (forallb p l) eqn:E.
  - apply filter_all in E. rewrite E. apply Z.eqb_eq. lia.
  - apply Z.eqb_neq. intros H.
    assert (length (filter p l) = length l) as H' by lia.
    apply filter_all in H'. congruence.
Qed.

(** ** [fixed_point] *)

Lemma common_count_run n m w :
  culturized (self w) = true ->
  forall c, common_count (self w) n m = Some c ->
            common_features n m w = (Ok (Some c), w).
Proof.
  intros Hc c H. rewrite common_features_run by assumption.
  unfold common_count in H.
  destruct (culture_of (self w) n), (culture_of (self w) m); try discriminate.
  destruct (np_eq l l0); now inversion H.
Qed.

Lemma common_count_iff n m w c :
  culturized (self w) = true ->
  fst (common_features n m w) = Ok (Some c) <->
  common_count (self w) n m = Some c.
Proof.
  intros Hc. rewrite common_features_run by assumption.
  unfold common_count. simpl.
  destruct (culture_of (self w) n), (culture_of (self w) m);
    try (split; discriminate).
  destruct (np_eq l l0); split; intros H; inversion H; reflexivity.
Qed.

Lemma invariants_common_count g nf nt n m :
  culture_invariants g nf nt ->
  In n (node_ids g) -> In m (node_ids g) ->
  exists a b, culture_of g n = Some a /\ culture_of g m = Some b /\
              length a = length b /\ Z.of_nat (length a) = nf /\
              common_count g n m
              = Some (py_sum (map2 Z.eqb (cast a b) (cast b a))).
Proof.
  intros (_ & _ & H) Hn Hm.
  destruct (H n Hn) as (a & Ha & La & _), (H m Hm) as (b & Hb & Lb & _).
  exists a, b. assert (length a = length b) as L by lia.
  repeat split; auto.
  unfold common_count. now rewrite Ha, Hb, np_eq_same_length.
Qed.

Lemma fixed_point_run w nf nt :
  culturized (self w) = true ->
  culture_invariants (self w) nf nt ->
  graph_ok (self w) ->
  fixed_point w = (Ok (Some (stable (self w) nf)), w).
Proof.
  intros Hc Hinv Hg. unfold fixed_point.
  rewrite bind_get_self, Hc.
  rewrite (bind_ok _ _ _ _ _ (node_list_run w)).
  rewrite (bind_ok _ _ w
             (fold_left (fun s n =>
                s + Z.b2z (forallb (stable_pair (self w) nf n)
                                   (neighbours_of (self w) n)))
                (node_ids (self w)) 0) w).
  - rewrite (bind_ok _ _ _ _ _ (len_self_run w)).
    unfold ret. do 3 f_equal.
    rewrite fold_add_b2z. unfold stable.
    replace (length (nodes (self w))) with (length (node_ids (self w)))
      by apply length_map.
    apply count_eqb_all.
  - apply for_each_pure. intros n s Hn.
    destruct (Hg n Hn) as (l & Hl & Hincl).
    destruct (proj2 (proj2 Hinv) n Hn) as (cn & Hcn & _).
    rewrite (bind_ok _ _ _ _ _ (get_culture_some n w cn Hcn)).
    unfold bind at 1. rewrite neighbors_run, Hl.
    rewrite (bind_ok _ _ w
               (fold_left (fun s m => s + Z.b2z (stable_pair (self w) nf n m))
                          l 0) w).
    + unfold bind at 1. rewrite neighbors_run, Hl. unfold ret.
      do 3 f_equal. unfold neighbours_of. rewrite Hl.
      rewrite fold_add_b2z. f_equal. apply count_eqb_all.
    + apply for_each_pure. intros m s' Hm.
      destruct (invariants_common_count _ _ _ n m Hinv Hn (Hincl m Hm))
        as (a & b & Ha & Hb & L & _ & Hcc).
      rewrite (bind_ok _ _ _ _ _ (get_culture_some m w b Hb)).
      rewrite (bind_ok _ _ _ _ _ (common_count_run n m w Hc _ Hcc)).
      rewrite (bind_ok _ _ _ _ _
                 (get_number_of_features_run w nf (proj1 Hinv))).
      unfold ret, stable_pair. now rewrite Hcc.
Qed.

(** C1.  On a culturized network that satisfies the invariants of the data
    model, [fixed_point] returns a boolean, and that boolean is true exactly
    when for every node [n] and every neighbour [m] of [n] the count
    [common_features(n, m)] is 0 or [number_of_features]; a node without
    neighbours imposes no condition. *)
Theorem fixed_point_iff_all_pairs_stable (w : world) (nf nt : Z) :
  culturized (self w) = true ->
  culture_invariants (self w) nf nt ->
  graph_ok (self w) ->
  exists b : bool,
    fixed_point w = (Ok (Some b), w) /\
    (b = true <->
     forall n, In n (node_ids (self w)) ->
     forall m, In m (neighbours_of (self w) n) ->
       fst (common_features n m w) = Ok (Some 0) \/
       fst (common_features n m w) = Ok (Some nf)).
Proof.
  intros Hc Hinv Hg. exists (stable (self w) nf). split.
  - now apply fixed_point_run with nt.
  - unfold stable. rewrite forallb_forall. split.
    + intros H n Hn m Hm. specialize (H n Hn).
      rewrite forallb_forall in H. specialize (H m Hm).
      unfold stable_pair, py_in in H.
      destruct (common_count (self w) n m) as [c|] eqn:E; [|discriminate].
      apply (common_count_iff n m w c Hc) in E.
      simpl in H. rewrite orb_false_r in H.
      apply orb_true_iff in H. rewrite !Z.eqb_eq in H.
      destruct H as [->| ->]; auto.
    + intros H n Hn. apply forallb_forall. intros m Hm.
      unfold stable_pair, py_in.
      destruct (H n Hn m Hm) as [E|E];
        apply (common_count_iff n m w _ Hc) in E; rewrite E; simpl;
        rewrite ?Z.eqb_refl, ?orb_true_r; reflexivity.
Qed.

(** ** Rewriting one statement at a time *)

Lemma bind_get_culture {B} n (f : list Z -> M B) w :
  bind (get_culture n) f w =
  match culture_of (self w) n with
  | Some c => f c w
  | None => (Raise KeyError, w)
  end.
Proof.
  unfold bind at 1. rewrite get_culture_run.
  destruct (culture_of (self w) n); reflexivity.
Qed.

Lemma bind_neighbors {B} n (f : list node -> M B) w :
  bind (neighbors n) f w =
  match lookup n (adj (self w)) with
  | Some l => f l w
  | None => (Raise NetworkXError, w)
  end.
Proof.
  unfold bind at 1. rewrite neighbors_run.
  destruct (lookup n (adj (self w))); reflexivity.
Qed.

Lemma bind_lift {A B} (r : result A) (f : A -> M B) w :
  bind (lift r) f w =
  match r with
  | Ok a => f a w
  | Raise e => (Raise e, w)
  end.
Proof. unfold bind, lift. destruct r; reflexivity. Qed.

Lemma bind_ret {A B} (a : A) (f : A -> M B) w : bind (ret a) f w = f a w.
Proof. reflexivity. Qed.

Lemma bind_print {B} s (f : unit -> M B) w :
  bind (print s) f w = f tt (mk_world (self w) (stdout w ++ [s])).
Proof. reflexivity. Qed.

Lemma bind_assoc {A B C} (m : M A) (f : A -> M B) (k : B -> M C) w :
  bind (bind m f) k w = bind m (fun a => bind (f a) k) w.
Proof.
  unfold bind. destruct (m w) as [[a|e] w']; reflexivity.
Qed.

Lemma bind_common_features {B} a b (f : option Z -> M B) w :
  culturized (self w) = true ->
  bind (common_features a b) f w =
  match culture_of (self w) a, culture_of (self w) b with
  | Some c1, Some c2 =>
      match np_eq c1 c2 with
      | Ok arr => f (Some (py_sum arr)) w
      | Raise e => (Raise e, w)
      end
  | _, _ => (Raise KeyError, w)
  end.
Proof.
  intros H. unfold bind at 1. rewrite common_features_run by assumption.
  destruct (culture_of (self w) a), (culture_of (self w) b); try reflexivity.
  destruct (np_eq l l0); reflexivity.
Qed.

(** ** [step] *)

Lemma set_culture_self n c w :
  self (snd (set_culture n c w)) = with_culture (self w) n c.
Proof.
  unfold set_culture, node_attrs, with_culture, bind, get_self, put_self,
    ret, raise.
  destruct (lookup n (nodes (self w))); reflexivity.
Qed.

Lemma snd_bind_get_self {A} (m : M A) w :
  snd (bind m (fun _ => get_self) w) = snd (m w).
Proof. unfold bind. destruct (m w) as [[a|e] w']; reflexivity. Qed.

Lemma step_cases rnd verbose w :
  self (snd (step rnd verbose w)) = self w \/
  exists agent nbrs partner ca cb differ arr p b idx v,
    culturized (self w) = true /\
    random_choice (agent_draw rnd) (node_ids (self w)) = Ok agent /\
    lookup agent (adj (self w)) = Some nbrs /\
    random_choice (neighbour_draw rnd) nbrs = Ok partner /\
    culture_of (self w) agent = Some ca /\
    culture_of (self w) partner = Some cb /\
    np_ne ca cb = Ok differ /\
    np_eq ca cb = Ok arr /\
    truediv (py_sum arr) (Z.of_nat (length ca)) = Ok p /\
    binomial1 (uniform_draw rnd) p = Ok b /\ b <> 0 /\
    random_choice (feature_draw rnd) (true_indices 0 differ) = Ok idx /\
    nth_error ca idx = Some v /\
    (idx < length cb)%nat /\
    self (snd (step rnd verbose w))
    = with_culture (self w) partner (replace_nth cb idx v).
Proof.
  unfold step. rewrite bind_get_self, snd_bind_get_self.
  destruct (culturized (self w)) eqn:Hc; [|left; reflexivity].
  rewrite (bind_ok _ _ _ _ _ (node_list_run w)).
  rewrite bind_lift.
  destruct (random_choice (agent_draw rnd) (node_ids (self w)))
    as [agent|] eqn:Ea; [|left; reflexivity].
  rewrite bind_neighbors.
  destruct (lookup agent (adj (self w))) as [nbrs|] eqn:En;
    [|left; reflexivity].
  rewrite bind_lift.
  destruct (random_choice (neighbour_draw rnd) nbrs) as [partner|] eqn:Ep;
    [|left; reflexivity].
  rewrite bind_get_culture.
  destruct (culture_of (self w) agent) as [ca|] eqn:Hca; [|left; reflexivity].
  rewrite bind_get_culture.
  destruct (culture_of (self w) partner) as [cb|] eqn:Hcb;
    [|left; reflexivity].
  rewrite bind_lift.
  destruct (np_ne ca cb) as [differ|] eqn:Hd; [|left; reflexivity].
  rewrite bind_common_features by assumption. rewrite Hca, Hcb.
  destruct (np_eq ca cb) as [arr|] eqn:Harr; [|left; reflexivity].
  rewrite bind_lift.
  destruct (truediv (py_sum arr) (Z.of_nat (length ca))) as [p|] eqn:Hp;
    [|left; reflexivity].
  destruct (Nat.ltb 0 (length (true_indices 0 differ))) eqn:Hlen.
  2:{ rewrite bind_ret. left; reflexivity. }
  rewrite bind_assoc, bind_lift.
  destruct (binomial1 (uniform_draw rnd) p) as [b|] eqn:Hb; [|left; reflexivity].
  rewrite bind_ret.
  destruct (b =? 0) eqn:Hb0; [left; reflexivity|]. cbn [negb].
  apply Z.eqb_neq in Hb0.
  rewrite bind_lift.
  destruct (random_choice (feature_draw rnd) (true_indices 0 differ))
    as [idx|] eqn:Hidx; [|left; reflexivity].
  assert (forall w1, self w1 = self w ->
    let w' := snd ((source <- get_culture agent;;
        v <- lift (list_get source idx);;
        target <- get_culture partner;;
        target' <- lift (list_set target idx v);;
        set_culture partner target') w1) in
    self w' = self w \/
    exists v, nth_error ca idx = Some v /\ (idx < length cb)%nat /\
      self w' = with_culture (self w) partner (replace_nth cb idx v)) as T.
  { intros w1 Hw1. rewrite bind_get_culture, Hw1, Hca.
    rewrite bind_lift. unfold list_get.
    destruct (nth_error ca idx) as [v|] eqn:Hv; [|left; assumption].
    rewrite bind_get_culture, Hw1, Hcb. rewrite bind_lift.
    unfold list_set. destruct (Nat.ltb idx (length cb)) eqn:Hlt;
      [|left; assumption].
    right. exists v. split; [reflexivity|]. split.
    - now apply Nat.ltb_lt.
    - cbv zeta. rewrite set_culture_self. now rewrite Hw1. }
  destruct verbose.
  - repeat (rewrite bind_assoc || rewrite bind_print).
    match goal with |- context [snd (?m ?w1)] =>
      destruct (T w1 eq_refl) as [H|(v & Hv & Hlt & H)] end.
    + left. exact H.
    + right. exists agent, nbrs, partner, ca, cb, differ, arr, p, b, idx, v.
      repeat (split; [assumption || reflexivity|]). exact H.
  - rewrite bind_ret.
    destruct (T w eq_refl) as [H|(v & Hv & Hlt & H)].
    + left. exact H.
    + right. exists agent, nbrs, partner, ca, cb, differ, arr, p, b, idx, v.
      repeat (split; [assumption || reflexivity|]). exact H.
Qed.

(** ** The node dictionary *)

Lemma lookup_In {A} k (d : list (node * A)) v :
  lookup k d = Some v -> In k (map fst d).
Proof.
  induction d as [|[k' v'] d IH]; simpl; [discriminate|].
  destruct (Nat.eqb k k') eqn:E.
  - apply Nat.eqb_eq in E. auto.
  - auto.
Qed.

Lemma In_lookup {A} k (d : list (node * A)) :
  In k (map fst d) -> exists v, lookup k d = Some v.
Proof.
  induction d as [|[k' v'] d IH]; simpl; [tauto|].
  intros H. destruct (Nat.eqb k k') eqn:E; [eauto|].
  apply Nat.eqb_neq in E. destruct H as [H|H]; [congruence|auto].
Qed.

Lemma update_keys {A} k (v : A) d : map fst (update k v d) = map fst d.
Proof.
  induction d as [|[k' v'] d IH]; simpl; [reflexivity|].
  destruct (Nat.eqb k k'); simpl; congruence.
Qed.

Lemma lookup_update_same {A} k (v v0 : A) d :
  lookup k d = Some v0 -> lookup k (update k v d) = Some v.
Proof.
  induction d as [|[k' v'] d IH]; simpl; [discriminate|].
  destruct (Nat.eqb k k') eqn:E; simpl; rewrite E; auto.
Qed.

Lemma lookup_update_other {A} k k' (v : A) d :
  k' <> k -> lookup k' (update k v d) = lookup k' d.
Proof.
  intros Hne. induction d as [|[k2 v2] d IH]; simpl; [reflexivity|].
  destruct (Nat.eqb k k2) eqn:E; simpl.
  - apply Nat.eqb_eq in E. subst k2.
    destruct (Nat.eqb k' k) eqn:E'; [|reflexivity].
    apply Nat.eqb_eq in E'. congruence.
  - now rewrite IH.
Qed.

Lemma culture_of_In g n c : culture_of g n = Some c -> In n (node_ids g).
Proof.
  unfold culture_of, node_ids.
  destruct (lookup n (nodes g)) eqn:E; [|discriminate].
  intros _. now apply lookup_In with a.
Qed.

Lemma with_culture_same g n c c0 :
  culture_of g n = Some c0 -> culture_of (with_culture g n c) n = Some c.
Proof.
  unfold culture_of, with_culture.
  destruct (lookup n (nodes g)) as [d|] eqn:E; [|discriminate].
  intros _. simpl. now rewrite (lookup_update_same n _ d).
Qed.

Lemma with_culture_other g n c m :
  m <> n -> culture_of (with_culture g n c) m = culture_of g m.
Proof.
  intros Hne. unfold culture_of, with_culture.
  destruct (lookup n (nodes g)) as [d|] eqn:E; [|reflexivity].
  simpl. now rewrite lookup_update_other.
Qed.

Lemma with_culture_frame g n c :
  node_ids (with_culture g n c) = node_ids g /\
  adj (with_culture g n c) = adj g /\
  culturized (with_culture g n c) = culturized g /\
  number_of_features (with_culture g n c) = number_of_features g /\
  number_of_traits (with_culture g n c) = number_of_traits g.
Proof.
  unfold with_culture, node_ids.
  destruct (lookup n (nodes g)); simpl; rewrite ?update_keys; auto.
Qed.

(** ** Lists *)

Lemma replace_nth_length {A} (l : list A) i v :
  length (replace_nth l i v) = length l.
Proof.
  revert i. induction l as [|x l IH]; intros [|i]; simpl; auto.
Qed.

Lemma replace_nth_other {A} (l : list A) i v j :
  j <> i -> nth_error (replace_nth l i v) j = nth_error l j.
Proof.
  revert i j. induction l as [|x l IH]; intros [|i] [|j] H; simpl; auto.
  congruence.
Qed.

Lemma replace_nth_Forall {A} (P : A -> Prop) (l : list A) i v :
  Forall P l -> P v -> Forall P (replace_nth l i v).
Proof.
  intros Hl Hv. revert i.
  induction Hl as [|x l Hx Hl IH]; intros [|i]; simpl; auto.
Qed.

Lemma random_choice_In {A} raw (l : list A) x :
  random_choice raw l = Ok x -> In x l.
Proof.
  destruct l as [|y l]; [discriminate|].
  unfold random_choice. intros H.
  assert (nth (raw mod length (y :: l)) (y :: l) y = x) as <- by congruence.
  apply nth_In. apply Nat.mod_upper_bound. discriminate.
Qed.

Lemma random_choice_any {A} (l : list A) x :
  In x l -> exists raw, random_choice raw l = Ok x.
Proof.
  intros H. destruct l as [|y l]; [destruct H|].
  destruct (In_nth _ _ y H) as (n & Hn & E).
  exists n. unfold random_choice. now rewrite Nat.mod_small, E.
Qed.

Lemma random_choice_nonempty {A} raw (l : list A) :
  l <> [] -> exists x, random_choice raw l = Ok x.
Proof. destruct l; [congruence|]. intros _. eexists. reflexivity. Qed.

Lemma invariants_culture g nf nt n c :
  culture_invariants g nf nt -> culture_of g n = Some c ->
  Z.of_nat (length c) = nf /\ Forall (fun t => 1 <= t <= nt) c.
Proof.
  intros (_ & _ & H) Hc.
  destruct (H n (culture_of_In _ _ _ Hc)) as (c' & Hc' & L & R).
  assert (c' = c) as -> by congruence. auto.
Qed.

(** C5.  On a culturized network that satisfies the invariants of the data
    model, one call of [step], whatever the draws, leaves every node with a
    culture vector of the same length whose entries are all within
    [1, number_of_traits]; it changes at most one entry [idx] of the culture
    of at most one node [partner], every other node's culture and every
    other entry being as before; and when the network changed at all, that
    node is the neighbour drawn for the drawn agent. *)
Theorem step_non_destructive (w : world) (rnd : draws) (verbose : bool)
    (nf nt : Z) :
  culturized (self w) = true ->
  culture_invariants (self w) nf nt ->
  let g := self w in
  let g' := self (snd (step rnd verbose w)) in
  (forall n c, culture_of g n = Some c ->
     exists c', culture_of g' n = Some c' /\
                length c' = length c /\
                Forall (fun t => 1 <= t <= nt) c') /\
  exists partner idx,
    (forall n, n <> partner -> culture_of g' n = culture_of g n) /\
    (forall c c', culture_of g partner = Some c ->
                  culture_of g' partner = Some c' ->
                  forall j, j <> idx -> nth_error c' j = nth_error c j) /\
    (g' <> g ->
     exists agent nbrs,
       random_choice (agent_draw rnd) (node_ids g) = Ok agent /\
       lookup agent (adj g) = Some nbrs /\
       random_choice (neighbour_draw rnd) nbrs = Ok partner).
Proof.
  intros _ Hinv g g'. subst g g'.
  destruct (step_cases rnd verbose w)
    as [E|(agent & nbrs & partner & ca & cb & differ & arr & p & b & idx & v
           & _ & Ea & En & Ep & Hca & Hcb & _ & _ & _ & _ & _ & _ & Hv & Hlt
           & E)].
  - rewrite E. split.
    + intros n c Hc. exists c. repeat split; auto.
      now destruct (invariants_culture _ _ _ _ _ Hinv Hc).
    + exists O, O. repeat split; auto.
      * intros c c' Hc Hc' j _. congruence.
      * congruence.
  - rewrite E. split.
    + intros n c Hc. destruct (Nat.eq_dec n partner) as [->|Hne].
      * assert (c = cb) as -> by congruence.
        exists (replace_nth cb idx v). split; [|split].
        -- now apply with_culture_same with cb.
        -- apply replace_nth_length.
        -- apply replace_nth_Forall.
           ++ now destruct (invariants_culture _ _ _ _ _ Hinv Hcb).
           ++ destruct (invariants_culture _ _ _ _ _ Hinv Hca) as [_ R].
              rewrite Forall_forall in R. apply R.
              now apply nth_error_In with idx.
      * exists c. rewrite with_culture_other by assumption.
        repeat split; auto.
        now destruct (invariants_culture _ _ _ _ _ Hinv Hc).
    + exists partner, idx. split; [|split].
      * intros n Hne. now apply with_culture_other.
      * intros c c' Hc Hc' j Hj.
        rewrite (with_culture_same (self w) partner _ cb Hcb) in Hc'.
        assert (c = cb) as -> by congruence.
        assert (c' = replace_nth cb idx v) as -> by congruence.
        now apply replace_nth_other.
      * intros _. exists agent, nbrs. auto.
Qed.

(** ** Agreement, disagreement and the copy probability *)

Lemma py_sum_bounds l : 0 <= py_sum l <= Z.of_nat (length l).
Proof.
  induction l as [|b l IH]; simpl py_sum; simpl length; [lia|].
  destruct b; simpl Z.b2z; lia.
Qed.

Lemma np_ne_same_length a b :
  length a = length b ->
  np_ne a b = Ok (map2 (fun x y => negb (x =? y)) (cast a b) (cast b a)).
Proof.
  intros H. unfold np_ne, elementwise. now rewrite H, Nat.eqb_refl.
Qed.

Lemma full_agreement_no_disagreement a b k :
  length a = length b ->
  py_sum (map2 Z.eqb a b) = Z.of_nat (length a) ->
  true_indices k (map2 (fun x y => negb (x =? y)) a b) = [].
Proof.
  revert b k. induction a as [|x a IH]; intros [|y b] k L H;
    try discriminate; [reflexivity|].
  cbn [map2 py_sum true_indices length] in *. injection L as L.
  pose proof (py_sum_bounds (map2 Z.eqb a b)) as B.
  rewrite (map2_length Z.eqb a b L) in B.
  rewrite Nat2Z.inj_succ in H.
  destruct (x =? y); cbn [negb Z.b2z] in *.
  - apply IH; [assumption | lia].
  - lia.
Qed.

Lemma true_indices_In k arr i :
  In i (true_indices k arr) ->
  (k <= i)%nat /\ nth_error arr (i - k) = Some true.
Proof.
  revert k. induction arr as [|b arr IH]; intros k H; simpl in H; [tauto|].
  assert (In i (true_indices (S k) arr) ->
          (k <= i)%nat /\ nth_error (b :: arr) (i - k) = Some true) as T.
  { intros H'. destruct (IH _ H') as [Hle Hn]. split; [lia|].
    replace (i - k)%nat with (S (i - S k)) by lia. exact Hn. }
  destruct b; [|auto].
  destruct H as [<-|H]; [|auto].
  split; [lia|]. now rewrite Nat.sub_diag.
Qed.

Lemma ratio_range c n :
  0 <= c <= n -> 0 < n ->
  Qle_bool 0 (inject_Z c / inject_Z n) && Qle_bool (inject_Z c / inject_Z n) 1
  = true.
Proof.
  intros Hc Hn. destruct n as [|p|p]; try lia.
  unfold Qle_bool, Qdiv, Qinv, Qmult, inject_Z. simpl.
  apply andb_true_iff. split; apply Z.leb_le; lia.
Qed.

Lemma ratio_zero n : Qeq_bool (inject_Z 0 / inject_Z n) 0 = true.
Proof.
  apply Qeq_bool_iff. unfold Qeq, Qdiv, Qmult. simpl. reflexivity.
Qed.

Lemma unit_sample_num raw : 0 <= Qnum (unit_sample raw).
Proof. unfold unit_sample. cbn [Qnum]. apply N2Z.is_nonneg. Qed.

Lemma below_unit_sample raw (p : Q) :
  Qnum p <= 0 -> Qle_bool p (unit_sample raw) = true.
Proof.
  intros Hp. apply Qle_bool_iff. unfold Qle.
  pose proof (unit_sample_num raw) as Hu.
  assert (0 < Z.pos (Qden p)) by lia.
  assert (0 < Z.pos (Qden (unit_sample raw))) by lia.
  nia.
Qed.

Lemma ratio_num c n : 0 < n -> Qnum (inject_Z c / inject_Z n) = c.
Proof.
  intros Hn. destruct n as [|q|q]; try lia.
  unfold Qdiv, Qinv, Qmult, inject_Z. simpl. lia.
Qed.

Lemma binomial1_zero raw n b :
  binomial1 raw (inject_Z 0 / inject_Z n) = Ok b -> b = 0.
Proof.
  unfold binomial1. rewrite below_unit_sample.
  - destruct (_ && _); congruence.
  - unfold Qdiv, Qmult. cbn [Qnum inject_Z]. lia.
Qed.

Lemma truediv_ok a b p :
  truediv a b = Ok p -> b <> 0 /\ p = (inject_Z a / inject_Z b)%Q.
Proof.
  unfold truediv. destruct (b =? 0) eqn:E; [discriminate|].
  apply Z.eqb_neq in E. intros H. split; congruence.
Qed.

(** C2.  On a culturized network that satisfies the invariants of the data
    model and on which [fixed_point] returns true, a call of [step] leaves the
    network as it is, for every outcome of the four draws: every node keeps
    its culture vector, and [fixed_point] returns true again, so that the
    same holds of every later call. *)
Theorem fixed_point_is_absorbing (w : world) (nf nt : Z) (rnd : draws)
    (verbose : bool) :
  culturized (self w) = true ->
  culture_invariants (self w) nf nt ->
  graph_ok (self w) ->
  fst (fixed_point w) = Ok (Some true) ->
  self (snd (step rnd verbose w)) = self w /\
  (forall n, culture_of (self (snd (step rnd verbose w))) n
             = culture_of (self w) n) /\
  fst (fixed_point (snd (step rnd verbose w))) = Ok (Some true).
Proof.
  intros Hc Hinv Hg Hfp.
  rewrite (fixed_point_run w nf nt Hc Hinv Hg) in Hfp. simpl in Hfp.
  assert (stable (self w) nf = true) as Hs by congruence. clear Hfp.
  assert (self (snd (step rnd verbose w)) = self w) as E.
  2:{ split; [exact E|]. split; [intros n; now rewrite E|].
      rewrite (fixed_point_run _ nf nt); rewrite E; auto.
      simpl. now rewrite Hs. }
  destruct (step_cases rnd verbose w)
    as [E|(agent & nbrs & partner & ca & cb & differ & arr & p & b & idx & v
           & _ & Ea & En & Ep & Hca & Hcb & Hd & Harr & Hp & Hb & Hb0 & Hidx
           & _)]; [exact E|exfalso].
  unfold stable in Hs. rewrite forallb_forall in Hs.
  specialize (Hs agent (random_choice_In _ _ _ Ea)).
  rewrite forallb_forall in Hs. unfold neighbours_of in Hs. rewrite En in Hs.
  specialize (Hs partner (random_choice_In _ _ _ Ep)).
  destruct (invariants_culture _ _ _ _ _ Hinv Hca) as [La _].
  destruct (invariants_culture _ _ _ _ _ Hinv Hcb) as [Lb _].
  assert (length ca = length cb) as L by lia.
  unfold stable_pair, common_count in Hs. rewrite Hca, Hcb, Harr in Hs.
  simpl in Hs. rewrite orb_false_r in Hs. apply orb_true_iff in Hs.
  rewrite !Z.eqb_eq in Hs.
  destruct Hs as [Hs|Hs].
  - rewrite Hs in Hp. apply truediv_ok in Hp. destruct Hp as [_ ->].
    apply binomial1_zero in Hb. contradiction.
  - rewrite np_eq_same_length in Harr by assumption.
    rewrite np_ne_same_length in Hd by assumption.
    assert (arr = map2 Z.eqb (cast ca cb) (cast cb ca)) as -> by congruence.
    assert (differ
            = map2 (fun x y => negb (x =? y)) (cast ca cb) (cast cb ca)) as ->
      by congruence.
    rewrite (full_agreement_no_disagreement (cast ca cb) (cast cb ca) 0)
      in Hidx; [discriminate | now rewrite !cast_length |].
    rewrite cast_length. lia.
Qed.

Lemma nth_error_map2 {A B C} (f : A -> B -> C) a b i r :
  nth_error (map2 f a b) i = Some r ->
  exists x y, nth_error a i = Some x /\ nth_error b i = Some y /\ r = f x y.
Proof.
  revert b i. induction a as [|x a IH]; intros [|y b] [|i] H; simpl in H;
    try discriminate.
  - exists x, y. repeat split. congruence.
  - simpl. apply IH. exact H.
Qed.

Lemma disagreement_index ca cb idx :
  In idx (true_indices 0 (map2 (fun x y => negb (x =? y)) ca cb)) ->
  exists x y, nth_error ca idx = Some x /\ nth_error cb idx = Some y /\
              x <> y.
Proof.
  intros H. apply true_indices_In in H. destruct H as [_ H].
  rewrite Nat.sub_0_r in H.
  apply nth_error_map2 in H. destruct H as (x & y & Hx & Hy & E).
  exists x, y. repeat split; auto.
  symmetry in E. apply negb_true_iff in E. now apply Z.eqb_neq.
Qed.

Lemma no_self_disagreement (l : list Z) k :
  true_indices k (map2 (fun x y => negb (x =? y)) l l) = [].
Proof.
  revert k. induction l as [|x l IH]; intros k; simpl; [reflexivity|].
  rewrite Z.eqb_refl. simpl. apply IH.
Qed.

Lemma disagreement_in_range a b idx :
  length a = length b ->
  In idx (true_indices 0
            (map2 (fun x y => negb (x =? y)) (cast a b) (cast b a))) ->
  (idx < length a)%nat /\ (idx < length b)%nat.
Proof.
  intros L Hin. apply true_indices_In in Hin. destruct Hin as [_ Hin].
  rewrite Nat.sub_0_r in Hin.
  assert (idx < length (map2 (fun x y => negb (Z.eqb x y))
                             (cast a b) (cast b a)))%nat as Hlt
    by (apply nth_error_Some; congruence).
  rewrite map2_length in Hlt by now rewrite !cast_length.
  rewrite cast_length in Hlt. lia.
Qed.

(** C4.  In a call of [step] on a culturized network that satisfies the
    invariants of the data model, with [agent] and [partner] the nodes drawn:
    the Bernoulli trial is made with the probability
    [common_features(agent, partner) / number_of_features], which lies in
    [0, 1], and it succeeds exactly when the uniform sample of the draw is
    below that probability; when the two cultures disagree somewhere (the
    list [disagreements] that the code builds from
    [np.array(agent_culture) != np.array(neighbour_culture)]) and the trial
    succeeds, the index drawn among the disagreeing ones is the one entry of
    the partner's culture that is overwritten, with the agent's value there,
    the agent's culture staying as it is; when they disagree nowhere or the
    trial fails, the network stays as it is.  Every disagreeing index is the
    outcome of some draw. *)
Theorem step_copy_rule (w : world) (rnd : draws) (verbose : bool)
    (nf nt : Z) (agent partner : node) (nbrs : list node) (ca cb : list Z) :
  culturized (self w) = true ->
  culture_invariants (self w) nf nt ->
  random_choice (agent_draw rnd) (node_ids (self w)) = Ok agent ->
  lookup agent (adj (self w)) = Some nbrs ->
  random_choice (neighbour_draw rnd) nbrs = Ok partner ->
  culture_of (self w) agent = Some ca ->
  culture_of (self w) partner = Some cb ->
  let w' := snd (step rnd verbose w) in
  exists c differ,
    fst (common_features agent partner w) = Ok (Some c) /\
    np_ne ca cb = Ok differ /\
    let disagreements := true_indices 0 differ in
    let probability := Qdiv (inject_Z c) (inject_Z nf) in
    (0 < nf ->
     Qle 0 probability /\ Qle probability 1 /\
     binomial1 (uniform_draw rnd) probability
     = Ok (if Qle_bool probability (unit_sample (uniform_draw rnd))
           then 0 else 1)) /\
    (disagreements <> [] ->
     binomial1 (uniform_draw rnd) probability = Ok 1 ->
     exists idx v,
       random_choice (feature_draw rnd) disagreements = Ok idx /\
       In idx disagreements /\
       nth_error ca idx = Some v /\
       self w' = with_culture (self w) partner (replace_nth cb idx v) /\
       culture_of (self w') partner = Some (replace_nth cb idx v) /\
       culture_of (self w') agent = Some ca) /\
    (disagreements = [] \/
     binomial1 (uniform_draw rnd) probability = Ok 0 ->
     self w' = self w) /\
    (forall i, In i disagreements ->
       exists raw, random_choice raw disagreements = Ok i).
Proof.
  intros Hc Hinv Ea En Ep Hca Hcb w'.
  destruct (invariants_culture _ _ _ _ _ Hinv Hca) as [La _].
  destruct (invariants_culture _ _ _ _ _ Hinv Hcb) as [Lb _].
  assert (length ca = length cb) as L by lia.
  pose proof (np_eq_same_length ca cb L) as Harr.
  pose proof (np_ne_same_length ca cb L) as Hd.
  set (arr := map2 Z.eqb (cast ca cb) (cast cb ca)) in *.
  set (differ := map2 (fun x y => negb (x =? y)) (cast ca cb) (cast cb ca))
    in *.
  exists (py_sum arr), differ.
  assert (0 <= py_sum arr <= nf) as B.
  { pose proof (py_sum_bounds arr) as B. unfold arr in B.
    rewrite map2_length in B by now rewrite !cast_length.
    now rewrite cast_length, La in B. }
  split; [|split; [exact Hd|]].
  { rewrite common_features_run by assumption.
    now rewrite Hca, Hcb, Harr. }
  cbv zeta.
  split; [|split; [|split]].
  - intros Hnf. pose proof (ratio_range _ _ B Hnf) as R.
    unfold binomial1. rewrite R.
    apply andb_true_iff in R. rewrite !Qle_bool_iff in R.
    destruct R as [R0 R1]. repeat split; assumption.
  - intros HD Hbin.
    destruct (random_choice_nonempty (feature_draw rnd) _ HD) as [idx Hidx].
    pose proof (random_choice_In _ _ _ Hidx) as Hin.
    destruct (disagreement_in_range ca cb idx L Hin) as [Hlta Hlt].
    destruct (nth_error ca idx) as [x|] eqn:Hx;
      [|apply nth_error_None in Hx; lia].
    assert (nf <> 0) as Hnf0 by lia.
    assert (self w' = with_culture (self w) partner (replace_nth cb idx x))
      as E.
    { subst w'. unfold step.
      rewrite bind_get_self, snd_bind_get_self, Hc.
      rewrite (bind_ok _ _ _ _ _ (node_list_run w)).
      rewrite bind_lift, Ea, bind_neighbors, En, bind_lift, Ep.
      rewrite bind_get_culture, Hca, bind_get_culture, Hcb.
      rewrite bind_lift, Hd.
      rewrite bind_common_features by assumption.
      rewrite Hca, Hcb, Harr, bind_lift.
      unfold truediv. rewrite La.
      destruct (nf =? 0) eqn:E0; [apply Z.eqb_eq in E0; contradiction|].
      assert (Nat.ltb 0 (length (true_indices 0 differ)) = true) as ->.
      { apply Nat.ltb_lt.
        destruct (true_indices 0 differ); [congruence|simpl; lia]. }
      rewrite bind_assoc, bind_lift, Hbin, bind_ret.
      cbn [Z.eqb negb]. rewrite bind_lift, Hidx.
      assert (forall w1, self w1 = self w ->
        self (snd ((source <- get_culture agent;;
          v <- lift (list_get source idx);;
          target <- get_culture partner;;
          target' <- lift (list_set target idx v);;
          set_culture partner target') w1))
        = with_culture (self w) partner (replace_nth cb idx x)) as T.
      { intros w1 Hw1. rewrite bind_get_culture, Hw1, Hca, bind_lift.
        unfold list_get. rewrite Hx.
        rewrite bind_get_culture, Hw1, Hcb, bind_lift.
        unfold list_set.
        assert (Nat.ltb idx (length cb) = true) as ->
          by now apply Nat.ltb_lt.
        now rewrite set_culture_self, Hw1. }
      destruct verbose.
      - repeat (rewrite bind_assoc || rewrite bind_print).
        now apply T.
      - rewrite bind_ret. now apply T. }
    exists idx, x. repeat split; auto.
    + rewrite E. now apply with_culture_same with cb.
    + rewrite E. rewrite with_culture_other; [assumption|].
      intros ->. assert (ca = cb) by congruence. subst cb.
      apply HD. apply no_self_disagreement.
  - intros Hno.
    destruct (step_cases rnd verbose w)
      as [E|(agent' & nbrs' & partner' & ca' & cb' & differ' & arr' & p & b
             & idx & v & _ & Ea' & En' & Ep' & Hca' & Hcb' & Hd' & Harr'
             & Hp & Hb & Hb0 & Hidx & _)]; [exact E|exfalso].
    assert (agent' = agent) as -> by congruence.
    assert (nbrs' = nbrs) as -> by congruence.
    assert (partner' = partner) as -> by congruence.
    assert (ca' = ca) as -> by congruence.
    assert (cb' = cb) as -> by congruence.
    assert (differ' = differ) as -> by congruence.
    assert (arr' = arr) as -> by congruence.
    destruct Hno as [HD|Hbin].
    + rewrite HD in Hidx. discriminate.
    + apply truediv_ok in Hp. destruct Hp as [_ ->].
      rewrite La in Hb. congruence.
  - intros i Hi. now apply random_choice_any.
Qed.

(** ** [create_cultural_network] *)

Lemma comprehension_pure {A B} (f : A -> M B) (h : A -> B) (l : list A) w :
  (forall x, In x l -> f x w = (Ok (h x), w)) ->
  comprehension f l w = (Ok (map h l), w).
Proof.
  induction l as [|x l IH]; intros H; simpl; [reflexivity|].
  rewrite (bind_ok _ _ _ _ _ (H x (or_introl eq_refl))).
  rewrite (bind_ok _ _ _ _ _ (IH (fun y Hy => H y (or_intror Hy)))).
  reflexivity.
Qed.

Lemma with_culture_same_In g n c :
  In n (node_ids g) -> culture_of (with_culture g n c) n = Some c.
Proof.
  intros H. apply In_lookup in H. destruct H as [d Hd].
  unfold culture_of, with_culture. rewrite Hd. simpl.
  now rewrite (lookup_update_same n _ d).
Qed.

Lemma set_culture_ok n c w :
  In n (node_ids (self w)) ->
  set_culture n c w
  = (Ok tt, mk_world (with_culture (self w) n c) (stdout w)).
Proof.
  intros H. apply In_lookup in H. destruct H as [d Hd].
  unfold set_culture, node_attrs, with_culture, bind, get_self, put_self,
    ret, raise.
  now rewrite Hd.
Qed.

(** The loop that hands the freshly drawn vectors to the nodes. *)
Lemma assign_cultures ns : forall cs w,
  (forall n, In n ns -> In n (node_ids (self w))) ->
  length ns = length cs ->
  exists g',
    for_each (combine ns cs)
      (fun '(index, culture_) _ => set_culture index culture_) tt w
    = (Ok tt, mk_world g' (stdout w)) /\
    node_ids g' = node_ids (self w) /\
    adj g' = adj (self w) /\
    culturized g' = culturized (self w) /\
    number_of_features g' = number_of_features (self w) /\
    number_of_traits g' = number_of_traits (self w) /\
    (forall n, In n ns -> exists c, In c cs /\ culture_of g' n = Some c) /\
    (forall n, ~ In n ns -> culture_of g' n = culture_of (self w) n).
Proof.
  induction ns as [|n ns IH]; intros [|c cs] w Hin L; try discriminate.
  - exists (self w). simpl. unfold ret. destruct w; simpl.
    repeat split; auto. intros n [].
  - simpl in L. injection L as L. simpl combine. simpl for_each.
    rewrite (bind_ok _ _ _ _ _
               (set_culture_ok n c w (Hin n (or_introl eq_refl)))).
    destruct (with_culture_frame (self w) n c) as (Fi & Fa & Fc & Ff & Ft).
    destruct (IH cs (mk_world (with_culture (self w) n c) (stdout w)))
      as (g' & Hrun & Gi & Ga & Gc & Gf & Gt & Gin & Gout); auto.
    { intros m Hm. simpl. rewrite Fi. apply Hin. now right. }
    simpl in *. exists g'. split; [exact Hrun|].
    repeat split; try congruence.
    + intros m Hm. destruct (in_dec Nat.eq_dec m ns) as [Hns|Hns].
      * destruct (Gin m Hns) as (c' & Hc' & E). exists c'. auto.
      * destruct Hm as [<-|Hm]; [|contradiction].
        exists c. split; [now left|].
        rewrite (Gout n Hns). apply with_culture_same_In.
        apply Hin. now left.
    + intros m Hm. rewrite Gout by tauto.
      apply with_culture_other. intros ->. apply Hm. now left.
Qed.

Lemma randint_range a b raw :
  a <= b -> exists v, randint a b raw = Ok v /\ a <= v <= b.
Proof.
  intros H. unfold randint.
  assert ((a <=? b) = true) as -> by now apply Z.leb_le.
  eexists. split; [reflexivity|].
  pose proof (Z.mod_pos_bound raw (b - a + 1)). lia.
Qed.

(** C3.  Called with [number_of_features >= 1] and [number_of_traits >= 1]
    on any network and for any outcome of the random draws,
    [create_cultural_network] returns the network itself, now flagged as
    culturized, with both numbers recorded and with every node carrying a
    culture vector of [number_of_features] entries, each within
    [1, number_of_traits]; nodes and adjacency are as before. *)
Theorem create_cultural_network_initializes (w : world) (rand : nat -> Z)
    (nf nt : Z) :
  1 <= nf -> 1 <= nt ->
  let r := create_cultural_network rand nf nt w in
  fst r = Ok (self (snd r)) /\
  culturized (self (snd r)) = true /\
  node_ids (self (snd r)) = node_ids (self w) /\
  adj (self (snd r)) = adj (self w) /\
  culture_invariants (self (snd r)) nf nt.
Proof.
  intros Hnf Hnt.
  set (w2 := mk_world (mk_net (nodes (self w)) (adj (self w))
                              (culturized (self w)) (Some nf) (Some nt))
                      (stdout w)).
  set (row := fun node_ : nat =>
         map (fun feature : nat =>
                1 + rand (node_ * Z.to_nat nf + feature)%nat mod (nt - 1 + 1))
             (py_range nf)).
  assert (comprehension (fun node_ =>
      nf0 <- get_number_of_features;;
      comprehension (fun feature =>
        nt0 <- get_number_of_traits;;
        lift (randint 1 nt0 (rand (node_ * Z.to_nat nf0 + feature)%nat)))
        (py_range nf0))
      (py_range (Z.of_nat (length (nodes (self w))))) w2
    = (Ok (map row (py_range (Z.of_nat (length (nodes (self w)))))), w2))
    as Hcult.
  { apply comprehension_pure. intros node_ _.
    rewrite (bind_ok _ _ _ _ _ (get_number_of_features_run w2 nf eq_refl)).
    apply comprehension_pure. intros feature _.
    rewrite (bind_ok _ _ _ _ _ (get_number_of_traits_run w2 nt eq_refl)).
    unfold lift, randint.
    assert ((1 <=? nt) = true) as -> by now apply Z.leb_le.
    reflexivity. }
  set (cultures := map row (py_range (Z.of_nat (length (nodes (self w))))))
    in Hcult.
  assert (length (node_ids (self w2)) = length cultures) as L.
  { unfold cultures, py_range, node_ids. simpl.
    now rewrite !length_map, length_seq, Nat2Z.id. }
  destruct (assign_cultures (node_ids (self w2)) cultures w2 (fun n H => H) L)
    as (g' & Hrun & Gi & Ga & Gc & Gf & Gt & Gin & _).
  intros r.
  assert (r = (Ok (mk_net (nodes g') (adj g') true (number_of_features g')
                          (number_of_traits g')),
               mk_world (mk_net (nodes g') (adj g') true
                                (number_of_features g') (number_of_traits g'))
                        (stdout w))) as ->.
  { subst r. unfold create_cultural_network.
    rewrite bind_get_self. unfold bind at 1, put_self at 1.
    rewrite bind_get_self. unfold bind at 1, put_self at 1. cbn [self stdout].
    fold w2.
    rewrite (bind_ok _ _ _ _ _ (len_self_run w2)). cbn [self nodes w2].
    fold w2. rewrite (bind_ok _ _ _ _ _ Hcult).
    rewrite (bind_ok _ _ _ _ _ (node_list_run w2)).
    rewrite (bind_ok _ _ _ _ _ Hrun).
    reflexivity. }
  cbn [fst snd self culturized adj].
  split; [reflexivity|]. split; [reflexivity|].
  split; [exact Gi|]. split; [exact Ga|].
  - unfold culture_invariants. cbn [number_of_features number_of_traits].
    split; [rewrite Gf; reflexivity|]. split; [rewrite Gt; reflexivity|].
    intros n Hn.
    change (In n (node_ids g')) in Hn. rewrite Gi in Hn.
    destruct (Gin n Hn) as (c & Hc & E).
    exists c. split; [exact E|].
    unfold cultures in Hc. apply in_map_iff in Hc.
    destruct Hc as (node_ & <- & _). unfold row. split.
    + unfold py_range. rewrite length_map, length_seq. lia.
    + apply Forall_forall. intros t Ht. apply in_map_iff in Ht.
      destruct Ht as (feature & <- & _).
      pose proof (Z.mod_pos_bound
                    (rand (node_ * Z.to_nat nf + feature)%nat) (nt - 1 + 1)).
      lia.
Qed.

(** ** The cluster analyzer *)

Lemma list_eqb_eq a b : list_eqb a b = true <-> a = b.
Proof.
  revert b. induction a as [|x a IH]; intros [|y b]; simpl;
    try (split; [discriminate|congruence]); [tauto|].
  rewrite andb_true_iff, Z.eqb_eq, IH. split.
  - intros [-> ->]. reflexivity.
  - intros H. injection H as -> ->. auto.
Qed.

Lemma list_eqb_refl a : list_eqb a a = true.
Proof. now apply list_eqb_eq. Qed.

Lemma fold_left_snoc {A B} (h : A -> B) (l : list A) (s : list B) :
  fold_left (fun s x => s ++ [h x]) l s = s ++ map h l.
Proof.
  revert s. induction l as [|x l IH]; intros s; simpl.
  - now rewrite app_nil_r.
  - rewrite IH, <- app_assoc. reflexivity.
Qed.

Lemma fold_left_count {A} (p : A -> bool) (l : list A) (s : Z) :
  fold_left (fun s x => if p x then s + 1 else s) l s
  = s + Z.of_nat (length (filter p l)).
Proof.
  revert s. induction l as [|x l IH]; intros s; simpl; [lia|].
  rewrite IH. destruct (p x); simpl length; lia.
Qed.

Lemma cultured_get g n :
  cultured g -> In n (node_ids g) ->
  culture_of g n = Some (vector_of g n).
Proof.
  intros H Hn. unfold vector_of. destruct (H n Hn) as [c ->]. reflexivity.
Qed.

Lemma network_cultures_run set_iter w :
  culturized (self w) = true ->
  cultured (self w) ->
  network_cultures set_iter w
  = (Ok (Some (set_iter (node_cultures (self w)),
               Z.of_nat (length (set_iter (node_cultures (self w)))))), w).
Proof.
  intros Hc Hcult. unfold network_cultures.
  rewrite bind_get_self, Hc.
  rewrite (bind_ok _ _ _ _ _ (node_list_run w)).
  rewrite (bind_ok _ _ w (node_cultures (self w)) w); [reflexivity|].
  rewrite (for_each_pure _ _
             (fun s n => s ++ [vector_of (self w) n])).
  - now rewrite fold_left_snoc.
  - intros n s Hn.
    now rewrite (bind_ok _ _ _ _ _
                   (get_culture_some n w _ (cultured_get _ _ Hcult Hn))).
Qed.

Lemma cultural_sizes_and_max_run set_iter w :
  culturized (self w) = true ->
  cultured (self w) ->
  cultural_sizes_and_max set_iter w
  = (match py_max (map (cluster_size (self w))
                       (set_iter (node_cultures (self w)))) with
     | Ok mx => Ok (Some (map (cluster_size (self w))
                              (set_iter (node_cultures (self w))), mx))
     | Raise e => Raise e
     end, w).
Proof.
  intros Hc Hcult. unfold cultural_sizes_and_max.
  rewrite bind_get_self, Hc.
  rewrite (bind_ok _ _ _ _ _ (network_cultures_run set_iter w Hc Hcult)).
  rewrite (bind_ok _ _ w
             (map (cluster_size (self w))
                  (set_iter (node_cultures (self w)))) w).
  - rewrite bind_lift. destruct (py_max _); reflexivity.
  - rewrite (for_each_pure _ _
               (fun s c => s ++ [cluster_size (self w) c])).
    + now rewrite fold_left_snoc.
    + intros c s _.
      rewrite (bind_ok _ _ _ _ _ (node_list_run w)).
      rewrite (bind_ok _ _ w (cluster_size (self w) c) w); [reflexivity|].
      rewrite (for_each_pure _ _
                 (fun s n =>
                    if list_eqb (vector_of (self w) n) c
                    then s + 1 else s)).
      * rewrite (fold_left_count
                   (fun n => list_eqb (vector_of (self w) n) c)).
        unfold cluster_size, node_cultures. do 2 f_equal.
        simpl. f_equal.
        induction (node_ids (self w)) as [|n l IH]; simpl; [reflexivity|].
        destruct (list_eqb _ c); simpl; now rewrite IH.
      * intros n s' Hn.
        now rewrite (bind_ok _ _ _ _ _
                       (get_culture_some n w _ (cultured_get _ _ Hcult Hn))).
Qed.

(** Each vector is counted in exactly one cluster. *)
Lemma total_one_hot (c : list Z) (E : list (list Z)) :
  NoDup E -> In c E ->
  total (map (fun e => Z.b2z (list_eqb c e)) E) = 1.
Proof.
  induction 1 as [|e E Hn Hnd IH]; intros Hin; [destruct Hin|].
  simpl. destruct (list_eqb c e) eqn:Ee.
  - apply list_eqb_eq in Ee. subst e.
    assert (total (map (fun e => Z.b2z (list_eqb c e)) E) = 0) as ->;
      [|reflexivity].
    clear IH Hin Hnd. induction E as [|e E IH]; [reflexivity|].
    simpl. destruct (list_eqb c e) eqn:Ee.
    + apply list_eqb_eq in Ee. subst e. exfalso. apply Hn. now left.
    + simpl. apply IH. intros H. apply Hn. now right.
  - destruct Hin as [->|Hin]; [now rewrite list_eqb_refl in Ee|].
    simpl. now apply IH.
Qed.

Lemma total_add (f h : list Z -> Z) (E : list (list Z)) :
  total (map (fun e => f e + h e) E) = total (map f E) + total (map h E).
Proof. induction E as [|e E IH]; simpl; lia. Qed.

Lemma total_cluster_sizes (cs E : list (list Z)) :
  NoDup E -> (forall c, In c cs -> In c E) ->
  total (map (fun e =>
                Z.of_nat (length (filter (fun c' => list_eqb c' e) cs))) E)
  = Z.of_nat (length cs).
Proof.
  intros Hnd. induction cs as [|c cs IH]; intros Hin.
  - clear Hin Hnd. induction E as [|e E IH]; simpl in *; auto.
  - rewrite (map_ext _ (fun e => Z.b2z (list_eqb c e)
               + Z.of_nat (length (filter (fun c' => list_eqb c' e) cs)))).
    + rewrite total_add, IH, total_one_hot; auto.
      * simpl length. lia.
      * apply Hin. now left.
      * intros c' Hc'. apply Hin. now right.
    + intros e. simpl. destruct (list_eqb c e); simpl length; simpl Z.b2z; lia.
Qed.

Lemma last_seen_NoDup l : NoDup (last_seen l).
Proof. apply NoDup_nodup. Qed.

Lemma last_seen_In l x : In x (last_seen l) <-> In x l.
Proof. apply nodup_In. Qed.

Lemma node_cultures_length g : length (node_cultures g) = length (nodes g).
Proof. unfold node_cultures, node_ids. now rewrite !length_map. Qed.

(** ** The node colorer *)

Lemma with_color_culture g n i m :
  culture_of (with_color g n i) m = culture_of g m.
Proof.
  unfold culture_of, with_color.
  destruct (lookup n (nodes g)) as [d|] eqn:E; [|reflexivity]. simpl.
  destruct (Nat.eq_dec m n) as [->|Hne].
  - now rewrite (lookup_update_same n _ d), E.
  - now rewrite lookup_update_other.
Qed.

Lemma with_color_frame g n i :
  node_ids (with_color g n i) = node_ids g /\
  culturized (with_color g n i) = culturized g.
Proof.
  unfold with_color, node_ids.
  destruct (lookup n (nodes g)); simpl; rewrite ?update_keys; auto.
Qed.

Lemma with_color_same_In g n i :
  In n (node_ids g) -> color_of (with_color g n i) n = Some i.
Proof.
  intros H. apply In_lookup in H. destruct H as [d Hd].
  unfold color_of, with_color. rewrite Hd. simpl.
  now rewrite (lookup_update_same n _ d).
Qed.

Lemma with_color_other g n i m :
  m <> n -> color_of (with_color g n i) m = color_of g m.
Proof.
  intros Hne. unfold color_of, with_color.
  destruct (lookup n (nodes g)) as [d|] eqn:E; [|reflexivity].
  simpl. now rewrite lookup_update_other.
Qed.

Lemma set_color_ok n i w :
  In n (node_ids (self w)) ->
  set_color n i w = (Ok tt, mk_world (with_color (self w) n i) (stdout w)).
Proof.
  intros H. apply In_lookup in H. destruct H as [d Hd].
  unfold set_color, node_attrs, with_color, bind, get_self, put_self,
    ret, raise.
  now rewrite Hd.
Qed.

Lemma list_index_position c E :
  In c E ->
  list_index c E = Ok (position c E) /\
  nth_error E (position c E) = Some c.
Proof.
  induction E as [|e E IH]; intros H; [destruct H|].
  simpl. destruct (list_eqb e c) eqn:Ee.
  - apply list_eqb_eq in Ee. subst e. auto.
  - destruct H as [->|H]; [now rewrite list_eqb_refl in Ee|].
    destruct (IH H) as [-> Hn]. auto.
Qed.

Lemma node_cultures_ext g1 g2 :
  node_ids g1 = node_ids g2 ->
  (forall m, culture_of g1 m = culture_of g2 m) ->
  node_cultures g1 = node_cultures g2.
Proof.
  intros Hi Hc. unfold node_cultures. rewrite Hi.
  apply map_ext. intros n. unfold vector_of. now rewrite Hc.
Qed.

Section SetOrder.

(** The iteration order of Python sets is left open: any order that lists
    the added elements, each once. *)
Variable set_iter : list (list Z) -> list (list Z).
Hypothesis set_iter_NoDup : forall l, NoDup (set_iter l).
Hypothesis set_iter_In : forall l x, In x (set_iter l) <-> In x l.

Lemma set_iter_nil : set_iter [] = [].
Proof.
  destruct (set_iter []) as [|x l] eqn:E; [reflexivity|].
  exfalso. apply (set_iter_In [] x). rewrite E. now left.
Qed.

Lemma set_iter_nonempty l : l <> [] -> set_iter l <> [].
Proof.
  destruct l as [|x l]; [congruence|]. intros _ E.
  assert (In x (set_iter (x :: l))) as H by (apply set_iter_In; now left).
  rewrite E in H. destruct H.
Qed.

(** C7.  On a culturized network in which every node carries a culture, the
    cluster sizes that [cultural_sizes_and_max] returns add up to the number
    of nodes; it does return them whenever the network has a node. *)
Theorem cluster_sizes_sum_to_node_count (w : world) :
  culturized (self w) = true ->
  cultured (self w) ->
  (node_ids (self w) <> [] ->
   exists sizes mx,
     fst (cultural_sizes_and_max set_iter w) = Ok (Some (sizes, mx))) /\
  (forall sizes mx,
     fst (cultural_sizes_and_max set_iter w) = Ok (Some (sizes, mx)) ->
     total sizes = Z.of_nat (length (nodes (self w)))).
Proof.
  intros Hc Hcult.
  rewrite (cultural_sizes_and_max_run set_iter w Hc Hcult). split.
  - intros Hne.
    assert (set_iter (node_cultures (self w)) <> []) as HE.
    { apply set_iter_nonempty. unfold node_cultures.
      destruct (node_ids (self w)); [congruence|discriminate]. }
    destruct (set_iter (node_cultures (self w))) as [|e E]; [congruence|].
    simpl. eauto.
  - intros sizes mx H.
    destruct (py_max _) as [mx'|] in H; [|discriminate].
    simpl in H. injection H as <- _.
    rewrite <- node_cultures_length.
    apply total_cluster_sizes; [apply set_iter_NoDup|].
    intros c Hc'. now apply set_iter_In.
Qed.

(** C10.  On a culturized network without nodes [cultural_sizes_and_max]
    returns nothing: [max] is applied to the empty list of sizes and raises
    [ValueError].  On a culturized network with at least one node, every
    node carrying a culture, it returns the sizes and their maximum. *)
Theorem cultural_sizes_and_max_needs_a_node (w : world) :
  culturized (self w) = true ->
  (node_ids (self w) = [] ->
   cultural_sizes_and_max set_iter w = (Raise ValueError, w)) /\
  (node_ids (self w) <> [] -> cultured (self w) ->
   exists sizes mx,
     cultural_sizes_and_max set_iter w = (Ok (Some (sizes, mx)), w)).
Proof.
  intros Hc. split.
  - intros Hnil.
    assert (cultured (self w)) as Hcult.
    { intros n Hn. rewrite Hnil in Hn. destruct Hn. }
    rewrite (cultural_sizes_and_max_run set_iter w Hc Hcult).
    unfold node_cultures. rewrite Hnil. simpl. rewrite set_iter_nil.
    reflexivity.
  - intros Hne Hcult.
    rewrite (cultural_sizes_and_max_run set_iter w Hc Hcult).
    assert (set_iter (node_cultures (self w)) <> []) as HE.
    { apply set_iter_nonempty. unfold node_cultures.
      destruct (node_ids (self w)); [congruence|discriminate]. }
    destruct (set_iter (node_cultures (self w))) as [|e E]; [congruence|].
    simpl. eauto.
Qed.

Lemma color_loop (g0 : Cultural_Network) :
  cultured g0 ->
  forall l acc wi,
    culturized (self wi) = true ->
    node_ids (self wi) = node_ids g0 ->
    (forall m, culture_of (self wi) m = culture_of g0 m) ->
    incl l (node_ids g0) ->
    exists g',
      for_each l
        (fun node_number color_list =>
           culture_ <- get_culture node_number;;
           nc <- network_cultures set_iter;;
           match nc with
           | None => raise TypeError
           | Some (culture_list, _) =>
               index_color <- lift (list_index culture_ culture_list);;
               set_color node_number index_color;;;
               ret (color_list ++ [index_color])
           end) acc wi
      = (Ok (acc ++ map (fun n => position (vector_of g0 n)
                                    (set_iter (node_cultures g0))) l),
         mk_world g' (stdout wi)) /\
      culturized g' = true /\
      node_ids g' = node_ids g0 /\
      (forall m, culture_of g' m = culture_of g0 m) /\
      (forall n, In n l ->
         color_of g' n
         = Some (position (vector_of g0 n) (set_iter (node_cultures g0)))) /\
      (forall n, ~ In n l -> color_of g' n = color_of (self wi) n).
Proof.
  intros Hcult. induction l as [|n l IH]; intros acc wi Hc Hids Hcul Hincl.
  - exists (self wi). simpl. unfold ret. rewrite app_nil_r.
    destruct wi; simpl in *. repeat split; auto. intros n [].
  - assert (In n (node_ids g0)) as Hn by (apply Hincl; now left).
    assert (cultured (self wi)) as Hcult'.
    { intros m Hm. rewrite Hids in Hm. rewrite Hcul. now apply Hcult. }
    assert (node_cultures (self wi) = node_cultures g0) as Hnc.
    { apply node_cultures_ext; assumption. }
    assert (In (vector_of g0 n) (set_iter (node_cultures g0))) as HinE.
    { apply set_iter_In. unfold node_cultures. now apply in_map. }
    simpl for_each.
    rewrite bind_assoc, bind_get_culture, Hcul.
    rewrite (cultured_get g0 n Hcult Hn).
    rewrite bind_assoc.
    rewrite (bind_ok _ _ _ _ _ (network_cultures_run set_iter wi Hc Hcult')).
    rewrite Hnc, bind_assoc, bind_lift.
    rewrite (proj1 (list_index_position _ _ HinE)).
    rewrite bind_assoc.
    assert (In n (node_ids (self wi))) as Hn' by now rewrite Hids.
    rewrite (bind_ok _ _ _ _ _ (set_color_ok n _ wi Hn')).
    rewrite bind_ret.
    set (i := position (vector_of g0 n) (set_iter (node_cultures g0))).
    destruct (with_color_frame (self wi) n i) as (Fi & Fc).
    destruct (IH (acc ++ [i]) (mk_world (with_color (self wi) n i) (stdout wi)))
      as (g' & Hrun & Gc & Gi & Gcul & Gin & Gout).
    + simpl. congruence.
    + simpl. congruence.
    + intros m. simpl. now rewrite with_color_culture.
    + intros m Hm. apply Hincl. now right.
    + exists g'. simpl in Hrun. rewrite Hrun. simpl map.
      rewrite <- app_assoc. simpl. repeat split; auto.
      * intros m Hm. destruct (in_dec Nat.eq_dec m l) as [Hl|Hl]; [auto|].
        destruct Hm as [<-|Hm]; [|contradiction].
        rewrite (Gout n Hl). simpl. now apply with_color_same_In.
      * intros m Hm. rewrite Gout by tauto. simpl.
        apply with_color_other. intros ->. apply Hm. now left.
Qed.

(** C9.  On a culturized network in which every node carries a culture,
    [colorea_nodos] gives every node, as its colour, the position of the
    node's culture vector in the list of distinct cultures that
    [network_cultures] returns, and returns these positions in the iteration
    order of the nodes; the cultures are left as they are. *)
Theorem colorea_nodos_assigns_positions (w : world) :
  culturized (self w) = true ->
  cultured (self w) ->
  exists enum k colors g',
    network_cultures set_iter w = (Ok (Some (enum, k)), w) /\
    colorea_nodos set_iter w = (Ok (Some colors), mk_world g' (stdout w)) /\
    colors = map (fun n => position (vector_of (self w) n) enum)
                 (node_ids (self w)) /\
    (forall n, In n (node_ids (self w)) ->
       culture_of (self w) n = Some (vector_of (self w) n) /\
       nth_error enum (position (vector_of (self w) n) enum)
       = Some (vector_of (self w) n) /\
       color_of g' n = Some (position (vector_of (self w) n) enum)) /\
    node_ids g' = node_ids (self w) /\
    (forall m, culture_of g' m = culture_of (self w) m).
Proof.
  intros Hc Hcult.
  destruct (color_loop (self w) Hcult (node_ids (self w)) [] w Hc eq_refl
              (fun m => eq_refl) (fun m H => H))
    as (g' & Hrun & Gc & Gi & Gcul & Gin & _).
  exists (set_iter (node_cultures (self w))),
         (Z.of_nat (length (set_iter (node_cultures (self w))))),
         (map (fun n => position (vector_of (self w) n)
                          (set_iter (node_cultures (self w))))
              (node_ids (self w))), g'.
  split; [now apply network_cultures_run|].
  split.
  - unfold colorea_nodos. rewrite bind_get_self, Hc.
    rewrite (bind_ok _ _ _ _ _ (node_list_run w)).
    now rewrite (bind_ok _ _ _ _ _ Hrun).
  - split; [reflexivity|]. split; [|split; assumption].
    intros n Hn. split; [now apply cultured_get|]. split; [|now apply Gin].
    apply list_index_position. apply set_iter_In.
    unfold node_cultures. now apply in_map.
Qed.

End SetOrder.

(** ** Operations on a network that is not culturized *)

(** C6, as the code has it.  Called while [culturized] is false, none of the
    culture-dependent operations raises or changes the network.
    [common_features] prints the message and returns [None];
    [network_cultures], [cultural_sizes_and_max], [colorea_nodos] and
    [fixed_point] return [None] and print nothing; [step] returns the
    network itself and prints nothing. *)
Theorem uninitialized_operations (w : world)
    (set_iter : list (list Z) -> list (list Z)) (a b : node) (rnd : draws)
    (verbose : bool) :
  culturized (self w) = false ->
  common_features a b w
  = (Ok None, mk_world (self w) (stdout w ++ [not_culturized_msg])) /\
  step rnd verbose w = (Ok (self w), w) /\
  network_cultures set_iter w = (Ok None, w) /\
  cultural_sizes_and_max set_iter w = (Ok None, w) /\
  colorea_nodos set_iter w = (Ok None, w) /\
  fixed_point w = (Ok None, w).
Proof.
  intros Hc.
  unfold common_features, step, network_cultures, cultural_sizes_and_max,
    colorea_nodos, fixed_point.
  rewrite !bind_get_self, !Hc. repeat split.
Qed.

End WithNumpy.

(** C6 fails as stated: called on a network that is not culturized, [step]
    returns the network, not a null result, and neither [step] nor
    [network_cultures] reports anything. *)
Lemma uninitialized_step_is_silent :
  culturized bare = false /\
  step (mk_draws 0 0 0 0) false (mk_world bare [])
  = (Ok bare, mk_world bare []) /\
  ~ reports_not_culturized (step (mk_draws 0 0 0 0) false)
      (mk_world bare []) /\
  ~ reports_not_culturized (network_cultures last_seen) (mk_world bare []).
Proof.
  split; [reflexivity|]. split; [reflexivity|].
  split; intros H; discriminate H.
Qed.

Lemma uninitialized_operations_witness :
  common_features 0%nat 1%nat (mk_world bare [])
  = (Ok None, mk_world bare [not_culturized_msg]) /\
  step (mk_draws 0 0 0 0) true (mk_world bare [])
  = (Ok bare, mk_world bare []) /\
  network_cultures last_seen (mk_world bare []) = (Ok None, mk_world bare []) /\
  cultural_sizes_and_max last_seen (mk_world bare [])
  = (Ok None, mk_world bare []) /\
  colorea_nodos last_seen (mk_world bare []) = (Ok None, mk_world bare []) /\
  fixed_point (mk_world bare []) = (Ok None, mk_world bare []).
Proof.
  exact (uninitialized_operations (mk_world bare []) last_seen 0%nat 1%nat
           (mk_draws 0 0 0 0) true eq_refl).
Defined.

(** ** The theorems at the example networks *)

Ltac by_cases H :=
  simpl in H; repeat (destruct H as [<-|H]); try contradiction.

Lemma two_nodes_invariants : culture_invariants two_nodes 3 5.
Proof.
  split; [reflexivity|]. split; [reflexivity|].
  intros n Hn. by_cases Hn; eexists; (split; [reflexivity|]);
    (split; [reflexivity|]); repeat constructor; lia.
Defined.

Lemma settled_invariants : culture_invariants settled 3 5.
Proof.
  split; [reflexivity|]. split; [reflexivity|].
  intros n Hn. by_cases Hn; eexists; (split; [reflexivity|]);
    (split; [reflexivity|]); repeat constructor; lia.
Defined.

Lemma settled_graph_ok : graph_ok settled.
Proof.
  intros n Hn. by_cases Hn; eexists; (split; [reflexivity|]);
    intros m Hm; by_cases Hm; simpl; auto.
Defined.

Lemma wide_invariants : culture_invariants wide 2 (2 ^ 63 + 1).
Proof.
  split; [reflexivity|]. split; [reflexivity|].
  intros n Hn. by_cases Hn; eexists; (split; [reflexivity|]);
    (split; [reflexivity|]); repeat constructor; simpl; lia.
Defined.

Lemma wide_graph_ok : graph_ok wide.
Proof.
  intros n Hn. by_cases Hn; eexists; (split; [reflexivity|]);
    intros m Hm; by_cases Hm; simpl; auto.
Defined.

Lemma two_nodes_cultured : cultured two_nodes.
Proof. intros n Hn. by_cases Hn; eexists; reflexivity. Defined.

Lemma fixed_point_iff_all_pairs_stable_witness :
  exists b : bool,
    fixed_point (mk_world wide []) = (Ok (Some b), mk_world wide []) /\
    (b = true <->
     forall n, In n (node_ids wide) ->
     forall m, In m (neighbours_of wide n) ->
       fst (common_features n m (mk_world wide [])) = Ok (Some 0) \/
       fst (common_features n m (mk_world wide [])) = Ok (Some 2)).
Proof.
  exact (fixed_point_iff_all_pairs_stable (mk_world wide []) 2 (2 ^ 63 + 1)
           eq_refl wide_invariants wide_graph_ok).
Defined.

Lemma fixed_point_is_absorbing_witness :
  self (snd (step (mk_draws 1 0 0 0) true (mk_world wide []))) = wide /\
  (forall n,
     culture_of
       (self (snd (step (mk_draws 1 0 0 0) true (mk_world wide [])))) n
     = culture_of wide n) /\
  fst (fixed_point (snd (step (mk_draws 1 0 0 0) true (mk_world wide []))))
  = Ok (Some true).
Proof.
  exact (fixed_point_is_absorbing (mk_world wide []) 2 (2 ^ 63 + 1)
           (mk_draws 1 0 0 0) true
           eq_refl wide_invariants wide_graph_ok eq_refl).
Defined.

Lemma create_cultural_network_initializes_witness :
  let r := create_cultural_network (fun k => Z.of_nat k) 2 3
             (mk_world bare []) in
  fst r = Ok (self (snd r)) /\
  culturized (self (snd r)) = true /\
  node_ids (self (snd r)) = node_ids bare /\
  adj (self (snd r)) = adj bare /\
  culture_invariants (self (snd r)) 2 3.
Proof.
  apply (create_cultural_network_initializes (mk_world bare [])
           (fun k => Z.of_nat k) 2 3); lia.
Defined.

Lemma step_copy_rule_witness :
  let w' := snd (step (mk_draws 0 0 0 0) false (mk_world two_nodes [])) in
  exists c differ,
    fst (common_features 0%nat 1%nat (mk_world two_nodes [])) = Ok (Some c) /\
    np_ne [1; 2; 3] [1; 2; 4] = Ok differ /\
    let disagreements := true_indices 0 differ in
    let probability := Qdiv (inject_Z c) (inject_Z 3) in
    (0 < 3 ->
     Qle 0 probability /\ Qle probability 1 /\
     binomial1 0 probability
     = Ok (if Qle_bool probability (unit_sample 0) then 0 else 1)) /\
    (disagreements <> [] ->
     binomial1 0 probability = Ok 1 ->
     exists idx v,
       random_choice 0 disagreements = Ok idx /\
       In idx disagreements /\
       nth_error [1; 2; 3] idx = Some v /\
       self w' = with_culture two_nodes 1%nat (replace_nth [1; 2; 4] idx v) /\
       culture_of (self w') 1%nat = Some (replace_nth [1; 2; 4] idx v) /\
       culture_of (self w') 0%nat = Some [1; 2; 3]) /\
    (disagreements = [] \/ binomial1 0 probability = Ok 0 ->
     self w' = two_nodes) /\
    (forall i, In i disagreements ->
       exists raw, random_choice raw disagreements = Ok i).
Proof.
  exact (step_copy_rule (mk_world two_nodes []) (mk_draws 0 0 0 0) false
           3 5 0%nat 1%nat [1%nat] [1; 2; 3] [1; 2; 4]
           eq_refl two_nodes_invariants eq_refl eq_refl eq_refl eq_refl
           eq_refl).
Defined.

Lemma step_non_destructive_witness :
  let g := two_nodes in
  let g' :=
    self (snd (step (mk_draws 0 0 0 0) false (mk_world two_nodes []))) in
  (forall n c, culture_of g n = Some c ->
     exists c', culture_of g' n = Some c' /\
                length c' = length c /\
                Forall (fun t => 1 <= t <= 5) c') /\
  exists partner idx,
    (forall n, n <> partner -> culture_of g' n = culture_of g n) /\
    (forall c c', culture_of g partner = Some c ->
                  culture_of g' partner = Some c' ->
                  forall j, j <> idx -> nth_error c' j = nth_error c j) /\
    (g' <> g ->
     exists agent nbrs,
       random_choice 0 (node_ids g) = Ok agent /\
       lookup agent (adj g) = Some nbrs /\
       random_choice 0 nbrs = Ok partner).
Proof.
  exact (step_non_destructive (mk_world two_nodes []) (mk_draws 0 0 0 0)
           false 3 5 eq_refl two_nodes_invariants).
Defined.

Lemma cluster_sizes_sum_to_node_count_witness :
  (node_ids two_nodes <> [] ->
   exists sizes mx,
     fst (cultural_sizes_and_max last_seen (mk_world two_nodes []))
     = Ok (Some (sizes, mx))) /\
  (forall sizes mx,
     fst (cultural_sizes_and_max last_seen (mk_world two_nodes []))
     = Ok (Some (sizes, mx)) ->
     total sizes = 2).
Proof.
  exact (cluster_sizes_sum_to_node_count last_seen last_seen_NoDup
           last_seen_In (mk_world two_nodes []) eq_refl two_nodes_cultured).
Defined.

Lemma cultural_sizes_and_max_needs_a_node_witness :
  (node_ids two_nodes = [] ->
   cultural_sizes_and_max last_seen (mk_world two_nodes [])
   = (Raise ValueError, mk_world two_nodes [])) /\
  (node_ids two_nodes <> [] -> cultured two_nodes ->
   exists sizes mx,
     cultural_sizes_and_max last_seen (mk_world two_nodes [])
     = (Ok (Some (sizes, mx)), mk_world two_nodes [])).
Proof.
  exact (cultural_sizes_and_max_needs_a_node last_seen last_seen_In
           (mk_world two_nodes []) eq_refl).
Defined.

Lemma colorea_nodos_assigns_positions_witness :
  exists enum k colors g',
    network_cultures last_seen (mk_world two_nodes [])
    = (Ok (Some (enum, k)), mk_world two_nodes []) /\
    colorea_nodos last_seen (mk_world two_nodes [])
    = (Ok (Some colors), mk_world g' []) /\
    colors = map (fun n => position (vector_of two_nodes n) enum)
                 (node_ids two_nodes) /\
    (forall n, In n (node_ids two_nodes) ->
       culture_of two_nodes n = Some (vector_of two_nodes n) /\
       nth_error enum (position (vector_of two_nodes n) enum)
       = Some (vector_of two_nodes n) /\
       color_of g' n = Some (position (vector_of two_nodes n) enum)) /\
    node_ids g' = node_ids two_nodes /\
    (forall m, culture_of g' m = culture_of two_nodes m).
Proof.
  exact (colorea_nodos_assigns_positions last_seen last_seen_In
           (mk_world two_nodes []) eq_refl two_nodes_cultured).
Defined.

(** * Further properties of the methods *)

Section WithNumpyMore.

Context `{NP : Numpy}.

(** ** What [step] leaves alone *)

Lemma with_culture_color g n c m :
  color_of (with_culture g n c) m = color_of g m.
Proof.
  unfold color_of, with_culture.
  destruct (lookup n (nodes g)) as [d|] eqn:E; [|reflexivity]. simpl.
  destruct (Nat.eq_dec m n) as [->|Hne].
  - now rewrite (lookup_update_same n _ d), E.
  - now rewrite lookup_update_other.
Qed.

(** X1.  Whatever the draws and whatever the state of the network, a call of
    [step] changes neither the nodes, nor the adjacency, nor the flag
    [culturized], nor the two recorded numbers, nor the colour of any node:
    all it can touch is culture. *)
Theorem step_keeps_graph_and_attributes (w : world) (rnd : draws)
    (verbose : bool) :
  let g' := self (snd (step rnd verbose w)) in
  node_ids g' = node_ids (self w) /\
  adj g' = adj (self w) /\
  culturized g' = culturized (self w) /\
  number_of_features g' = number_of_features (self w) /\
  number_of_traits g' = number_of_traits (self w) /\
  forall n, color_of g' n = color_of (self w) n.
Proof.
  intros g'. subst g'.
  destruct (step_cases rnd verbose w)
    as [E|(agent & nbrs & partner & ca & cb & differ & arr & p & b & idx & v
           & _ & _ & _ & _ & _ & _ & _ & _ & _ & _ & _ & _ & _ & _ & H)].
  - rewrite E. repeat split.
  - rewrite H.
    destruct (with_culture_frame (self w) partner (replace_nth cb idx v))
      as (Fi & Fa & Fc & Ff & Ft).
    repeat split; auto. intros n. apply with_culture_color.
Qed.

Lemma step_invariants_kept w rnd verbose nf nt :
  culture_invariants (self w) nf nt ->
  culture_invariants (self (snd (step rnd verbose w))) nf nt.
Proof.
  intros Hinv.
  destruct (step_cases rnd verbose w)
    as [E|(agent & nbrs & partner & ca & cb & differ & arr & p & b & idx & v
           & _ & _ & _ & _ & Hca & Hcb & _ & _ & _ & _ & _ & _ & Hv & _ & E)];
    rewrite E; [assumption|].
  destruct (with_culture_frame (self w) partner (replace_nth cb idx v))
    as (Fi & _ & _ & Ff & Ft).
  destruct Hinv as (Hf & Ht & Hn).
  split; [congruence|]. split; [congruence|].
  intros n Hin. rewrite Fi in Hin.
  destruct (Nat.eq_dec n partner) as [->|Hne].
  - exists (replace_nth cb idx v).
    destruct (invariants_culture _ _ _ _ _ (conj Hf (conj Ht Hn)) Hcb)
      as [Lb Rb].
    destruct (invariants_culture _ _ _ _ _ (conj Hf (conj Ht Hn)) Hca)
      as [_ Ra].
    split; [now apply with_culture_same with cb|].
    split; [now rewrite replace_nth_length|].
    apply replace_nth_Forall; [assumption|].
    rewrite Forall_forall in Ra. apply Ra. now apply nth_error_In with idx.
  - destruct (Hn n Hin) as (c & Hc & L & R).
    exists c. rewrite with_culture_other by assumption. auto.
Qed.

(** X2.  [step] keeps the invariants of the data model and of the graph:
    after the call, whatever the draws, every node still carries a vector of
    [number_of_features] entries within [1, number_of_traits], and every node
    still has its adjacency entry, all neighbours being nodes. *)
Theorem step_preserves_invariants (w : world) (rnd : draws) (verbose : bool)
    (nf nt : Z) :
  culture_invariants (self w) nf nt ->
  graph_ok (self w) ->
  culture_invariants (self (snd (step rnd verbose w))) nf nt /\
  graph_ok (self (snd (step rnd verbose w))).
Proof.
  intros Hinv Hg. split; [now apply step_invariants_kept|].
  destruct (step_cases rnd verbose w)
    as [E|(agent & nbrs & partner & ca & cb & differ & arr & p & b & idx & v
           & _ & _ & _ & _ & _ & _ & _ & _ & _ & _ & _ & _ & _ & _ & H)].
  - now rewrite E.
  - rewrite H.
    destruct (with_culture_frame (self w) partner (replace_nth cb idx v))
      as (Fi & Fa & _).
    intros n Hn. rewrite Fi in Hn. rewrite Fi, Fa. now apply Hg.
Qed.

(** X3.  On a culturized network [step] raises [IndexError], and leaves the
    network and the output as they are, when the network has no node or when
    the drawn agent has no neighbour. *)
Theorem step_without_partner_raises (w : world) (rnd : draws)
    (verbose : bool) :
  culturized (self w) = true ->
  node_ids (self w) = [] \/
  (exists agent,
     random_choice (agent_draw rnd) (node_ids (self w)) = Ok agent /\
     lookup agent (adj (self w)) = Some []) ->
  step rnd verbose w = (Raise IndexError, w).
Proof.
  intros Hc H. unfold step. rewrite bind_get_self, Hc.
  unfold bind at 1.
  rewrite (bind_ok _ _ _ _ _ (node_list_run w)), bind_lift.
  destruct H as [Hnil|(agent & Ha & Hn)].
  - now rewrite Hnil.
  - rewrite Ha, bind_neighbors, Hn, bind_lift. reflexivity.
Qed.

(** ** The verbose mode of [step] *)

Lemma bind_then_self {A} (m : M A) w :
  bind m (fun _ => get_self) w
  = (match fst (m w) with
     | Ok _ => Ok (self (snd (m w)))
     | Raise e => Raise e
     end, snd (m w)).
Proof. unfold bind. destruct (m w) as [[a|e] w']; reflexivity. Qed.

Lemma set_culture_stdout n c w :
  stdout (snd (set_culture n c w)) = stdout w.
Proof.
  unfold set_culture, node_attrs, bind, get_self, put_self, ret, raise.
  destruct (lookup n (nodes (self w))); reflexivity.
Qed.

Lemma set_culture_fst n c w1 w2 :
  self w1 = self w2 ->
  fst (set_culture n c w1) = fst (set_culture n c w2).
Proof.
  intros E.
  unfold set_culture, node_attrs, bind, get_self, put_self, ret, raise.
  rewrite E. destruct (lookup n (nodes (self w2))); reflexivity.
Qed.

(** X4.  The flag [verbose] of [step] changes nothing but the output: with
    and without it the call returns the same value or raises the same
    exception and leaves the same network; without it nothing is printed. *)
Theorem step_verbose_only_prints (w : world) (rnd : draws) :
  fst (step rnd true w) = fst (step rnd false w) /\
  self (snd (step rnd true w)) = self (snd (step rnd false w)) /\
  stdout (snd (step rnd false w)) = stdout w.
Proof.
  unfold step. rewrite !bind_get_self, !bind_then_self.
  destruct (culturized (self w)) eqn:Hc; [|repeat split].
  rewrite !(bind_ok _ _ _ _ _ (node_list_run w)), !bind_lift.
  destruct (random_choice (agent_draw rnd) (node_ids (self w)))
    as [agent|]; [|repeat split].
  rewrite !bind_neighbors.
  destruct (lookup agent (adj (self w))) as [nbrs|]; [|repeat split].
  rewrite !bind_lift.
  destruct (random_choice (neighbour_draw rnd) nbrs) as [partner|];
    [|repeat split].
  rewrite !bind_get_culture.
  destruct (culture_of (self w) agent) as [ca|] eqn:Hca; [|repeat split].
  rewrite !bind_get_culture.
  destruct (culture_of (self w) partner) as [cb|] eqn:Hcb; [|repeat split].
  rewrite !bind_lift.
  destruct (np_ne ca cb) as [differ|]; [|repeat split].
  rewrite !bind_common_features by assumption. rewrite Hca, Hcb.
  destruct (np_eq ca cb) as [arr|]; [|repeat split].
  rewrite !bind_lift.
  destruct (truediv (py_sum arr) (Z.of_nat (length ca))) as [p|];
    [|repeat split].
  destruct (Nat.ltb 0 (length (true_indices 0 differ))).
  2:{ rewrite !bind_ret. repeat split. }
  rewrite !bind_assoc, !bind_lift.
  destruct (binomial1 (uniform_draw rnd) p) as [b|]; [|repeat split].
  rewrite !bind_ret.
  destruct (b =? 0); [repeat split|]. cbn [negb].
  rewrite !bind_lift.
  destruct (random_choice (feature_draw rnd) (true_indices 0 differ))
    as [idx|]; [|repeat split].
  repeat (rewrite bind_assoc || rewrite bind_print || rewrite bind_ret).
  rewrite !bind_get_culture. cbn [self]. rewrite Hca.
  rewrite !bind_lift.
  destruct (list_get ca idx) as [v|]; [|repeat split].
  rewrite !bind_get_culture. cbn [self]. rewrite Hcb.
  rewrite !bind_lift.
  destruct (list_set cb idx v) as [target'|]; [|repeat split].
  cbn [fst snd]. rewrite !set_culture_self, set_culture_stdout. cbn [self].
  match goal with
  | |- context [fst (set_culture partner target' (mk_world ?g ?o))] =>
      rewrite (set_culture_fst partner target' (mk_world g o) w eq_refl)
  end.
  repeat split.
Qed.

(** ** What an exchange does to the similarity *)

Lemma agreement_after_copy a : forall b i v y,
  nth_error a i = Some v -> nth_error b i = Some y -> v <> y ->
  py_sum (map2 Z.eqb a (replace_nth b i v)) = py_sum (map2 Z.eqb a b) + 1.
Proof.
  induction a as [|x a IH]; intros [|z b] [|i] v y Ha Hb Hne;
    simpl in Ha, Hb; try discriminate.
  - injection Ha as ->. injection Hb as ->.
    cbn [replace_nth map2 py_sum]. rewrite Z.eqb_refl.
    assert ((v =? y) = false) as -> by now apply Z.eqb_neq.
    simpl Z.b2z. lia.
  - cbn [replace_nth map2 py_sum]. rewrite (IH b i v y Ha Hb Hne). lia.
Qed.

(** Where numpy compares the integers themselves. *)
Lemma range_fits (l : list Z) (nt : Z) :
  nt < 2 ^ 63 -> Forall (fun t => 1 <= t <= nt) l ->
  forallb fits_int64 l = true.
Proof.
  intros Hnt Hl. apply forallb_forall. intros v Hv.
  rewrite Forall_forall in Hl. specialize (Hl v Hv).
  unfold fits_int64. apply andb_true_iff.
  assert (0 < 2 ^ 63) by reflexivity.
  split; [apply Z.leb_le | apply Z.ltb_lt]; lia.
Qed.

Lemma cast_exact a b :
  exact_on_int64 ->
  forallb fits_int64 a = true -> forallb fits_int64 b = true ->
  cast a b = a.
Proof.
  intros Hex Ha Hb. unfold cast.
  transitivity (map (fun v : Z => v) a); [|apply map_id].
  apply map_ext. intros v. now apply Hex.
Qed.

Lemma np_eq_exact a b :
  exact_on_int64 ->
  forallb fits_int64 a = true -> forallb fits_int64 b = true ->
  length a = length b ->
  np_eq a b = Ok (map2 Z.eqb a b).
Proof.
  intros Hex Ha Hb L. rewrite np_eq_same_length by assumption.
  now rewrite !cast_exact.
Qed.

Lemma np_ne_exact a b :
  exact_on_int64 ->
  forallb fits_int64 a = true -> forallb fits_int64 b = true ->
  length a = length b ->
  np_ne a b = Ok (map2 (fun x y => negb (x =? y)) a b).
Proof.
  intros Hex Ha Hb L. rewrite np_ne_same_length by assumption.
  now rewrite !cast_exact.
Qed.

(** X5.  Where numpy compares the integers themselves (traits below 2^63,
    so that every culture is an array of 64-bit integers) and under the
    invariants of the data model, a call of [step] that changes the network
    was made on an agent and a partner that agreed on some but not on all
    features, and it raises the number of features they have in common by
    exactly one. *)
Theorem step_raises_agreement_by_one (w : world) (rnd : draws)
    (verbose : bool) (nf nt : Z) :
  exact_on_int64 ->
  nt < 2 ^ 63 ->
  culture_invariants (self w) nf nt ->
  self (snd (step rnd verbose w)) <> self w ->
  exists agent nbrs partner c,
    random_choice (agent_draw rnd) (node_ids (self w)) = Ok agent /\
    lookup agent (adj (self w)) = Some nbrs /\
    random_choice (neighbour_draw rnd) nbrs = Ok partner /\
    fst (common_features agent partner w) = Ok (Some c) /\
    0 < c < nf /\
    fst (common_features agent partner (snd (step rnd verbose w)))
    = Ok (Some (c + 1)).
Proof.
  intros Hex Hnt Hinv Hch.
  destruct (step_cases rnd verbose w)
    as [E|(agent & nbrs & partner & ca & cb & differ & arr & p & b & idx & v
           & Hc & Ea & En & Ep & Hca & Hcb & Hd & Harr & Hp & Hb & Hb0 & Hidx
           & Hv & Hlt & E)]; [contradiction|].
  destruct (invariants_culture _ _ _ _ _ Hinv Hca) as [La Ra].
  destruct (invariants_culture _ _ _ _ _ Hinv Hcb) as [Lb Rb].
  assert (length ca = length cb) as L by lia.
  pose proof (range_fits ca nt Hnt Ra) as Fa.
  pose proof (range_fits cb nt Hnt Rb) as Fb.
  rewrite np_eq_exact in Harr by assumption.
  rewrite np_ne_exact in Hd by assumption.
  assert (arr = map2 Z.eqb ca cb) as -> by congruence.
  assert (differ = map2 (fun x y => negb (x =? y)) ca cb) as -> by congruence.
  pose proof (random_choice_In _ _ _ Hidx) as Hin.
  destruct (disagreement_index ca cb idx Hin) as (x & y & Hx & Hy & Hxy).
  assert (x = v) as -> by congruence.
  pose proof (py_sum_bounds (map2 Z.eqb ca cb)) as B.
  rewrite (map2_length Z.eqb ca cb L), La in B.
  exists agent, nbrs, partner, (py_sum (map2 Z.eqb ca cb)).
  split; [exact Ea|]. split; [exact En|]. split; [exact Ep|].
  split; [|split].
  - rewrite common_features_run by assumption.
    now rewrite Hca, Hcb, np_eq_exact.
  - assert (py_sum (map2 Z.eqb ca cb) <> 0) as N0.
    { intros Z0. rewrite Z0 in Hp. apply truediv_ok in Hp.
      destruct Hp as [_ ->]. apply binomial1_zero in Hb. contradiction. }
    assert (py_sum (map2 Z.eqb ca cb) <> nf) as Nn.
    { intros Zn.
      rewrite (full_agreement_no_disagreement ca cb 0 L) in Hidx by lia.
      discriminate. }
    lia.
  - destruct (with_culture_frame (self w) partner (replace_nth cb idx v))
      as (_ & _ & Fc & _).
    assert (agent <> partner) as Hap.
    { intros ->. assert (ca = cb) by congruence. subst cb. congruence. }
    assert (forallb fits_int64 (replace_nth cb idx v) = true) as Fb'.
    { apply (range_fits _ nt Hnt). apply replace_nth_Forall; [assumption|].
      rewrite Forall_forall in Ra. apply Ra. now apply nth_error_In with idx. }
    rewrite common_features_run by (rewrite E, Fc; assumption).
    rewrite E, (with_culture_other _ _ _ _ Hap), Hca.
    rewrite (with_culture_same _ _ _ cb Hcb).
    rewrite np_eq_exact by (try assumption; now rewrite replace_nth_length).
    now rewrite (agreement_after_copy ca cb idx v y Hv Hy Hxy).
Qed.

(** ** [create_cultural_network] at and beyond its preconditions *)

(** The call once the matrix of random cultures has been drawn. *)
Lemma create_run w rand nf nt cultures g' :
  let w2 := mk_world (mk_net (nodes (self w)) (adj (self w))
                             (culturized (self w)) (Some nf) (Some nt))
                     (stdout w) in
  comprehension (fun node_ =>
      nf0 <- get_number_of_features;;
      comprehension (fun feature =>
        nt0 <- get_number_of_traits;;
        lift (randint 1 nt0 (rand (node_ * Z.to_nat nf0 + feature)%nat)))
        (py_range nf0))
      (py_range (Z.of_nat (length (nodes (self w))))) w2
  = (Ok cultures, w2) ->
  for_each (combine (node_ids (self w2)) cultures)
    (fun '(index, culture_) _ => set_culture index culture_) tt w2
  = (Ok tt, mk_world g' (stdout w)) ->
  create_cultural_network rand nf nt w
  = (Ok (mk_net (nodes g') (adj g') true (number_of_features g')
                (number_of_traits g')),
     mk_world (mk_net (nodes g') (adj g') true (number_of_features g')
                      (number_of_traits g'))
              (stdout w)).
Proof.
  intros w2 Hcult Hrun. unfold create_cultural_network.
  rewrite bind_get_self. unfold bind at 1, put_self at 1.
  rewrite bind_get_self. unfold bind at 1, put_self at 1. cbn [self stdout].
  fold w2.
  rewrite (bind_ok _ _ _ _ _ (len_self_run w2)). cbn [self nodes w2].
  fold w2. rewrite (bind_ok _ _ _ _ _ Hcult).
  rewrite (bind_ok _ _ _ _ _ (node_list_run w2)).
  rewrite (bind_ok _ _ _ _ _ Hrun).
  reflexivity.
Qed.

(** The assignment loop again, now with the colours and, for distinct
    nodes, with the vector each node ends up with. *)
Lemma assign_cultures_exact ns : forall cs w,
  (forall n, In n ns -> In n (node_ids (self w))) ->
  length ns = length cs ->
  exists g',
    for_each (combine ns cs)
      (fun '(index, culture_) _ => set_culture index culture_) tt w
    = (Ok tt, mk_world g' (stdout w)) /\
    node_ids g' = node_ids (self w) /\
    number_of_features g' = number_of_features (self w) /\
    number_of_traits g' = number_of_traits (self w) /\
    (forall n, color_of g' n = color_of (self w) n) /\
    (forall n, ~ In n ns -> culture_of g' n = culture_of (self w) n) /\
    (NoDup ns -> map (vector_of g') ns = cs).
Proof.
  induction ns as [|n ns IH]; intros [|c cs] w Hin L; try discriminate.
  - exists (self w). simpl. unfold ret. destruct w; simpl.
    repeat split; auto.
  - simpl in L. injection L as L. simpl combine. simpl for_each.
    rewrite (bind_ok _ _ _ _ _
               (set_culture_ok n c w (Hin n (or_introl eq_refl)))).
    destruct (with_culture_frame (self w) n c) as (Fi & Fa & Fc & Ff & Ft).
    destruct (IH cs (mk_world (with_culture (self w) n c) (stdout w)))
      as (g' & Hrun & Gi & Gf & Gt & Gcol & Gout & Gex); auto.
    { intros m Hm. simpl. rewrite Fi. apply Hin. now right. }
    simpl in *. exists g'. split; [exact Hrun|].
    split; [congruence|]. split; [congruence|]. split; [congruence|].
    split; [|split].
    + intros m. rewrite Gcol. apply with_culture_color.
    + intros m Hm. rewrite Gout by tauto.
      apply with_culture_other. intros ->. apply Hm. now left.
    + intros Hnd. inversion Hnd as [|? ? Hn Hnd']; subst.
      rewrite (Gex Hnd'). f_equal.
      unfold vector_of. rewrite (Gout n Hn).
      rewrite with_culture_same_In; [reflexivity|]. apply Hin. now left.
Qed.

(** X6.  Called with [number_of_traits < 1] and [number_of_features >= 1] on
    a network that has a node, [create_cultural_network] raises [ValueError]
    at the first draw.  By then it has recorded the two numbers; the
    cultures, the flag [culturized] and the output are as before. *)
Theorem create_cultural_network_without_traits (w : world) (rand : nat -> Z)
    (nf nt : Z) :
  nodes (self w) <> [] -> 1 <= nf -> nt < 1 ->
  create_cultural_network rand nf nt w
  = (Raise ValueError,
     mk_world (mk_net (nodes (self w)) (adj (self w)) (culturized (self w))
                      (Some nf) (Some nt))
              (stdout w)).
Proof.
  intros Hne Hnf Hnt. unfold create_cultural_network.
  rewrite bind_get_self. unfold bind at 1, put_self at 1.
  rewrite bind_get_self. unfold bind at 1, put_self at 1. cbn [self stdout].
  set (w2 := mk_world _ (stdout w)).
  rewrite (bind_ok _ _ _ _ _ (len_self_run w2)). cbn [self nodes w2].
  fold w2.
  destruct (nodes (self w)) as [|x l] eqn:El; [congruence|].
  unfold py_range at 2. rewrite Nat2Z.id. cbn [length seq comprehension].
  rewrite !bind_assoc.
  rewrite (bind_ok _ _ _ _ _ (get_number_of_features_run w2 nf eq_refl)).
  unfold py_range.
  destruct (Z.to_nat nf) as [|k] eqn:Ek; [lia|].
  cbn [seq comprehension]. rewrite !bind_assoc.
  rewrite (bind_ok _ _ _ _ _ (get_number_of_traits_run w2 nt eq_refl)).
  rewrite bind_lift. unfold randint.
  assert ((1 <=? nt) = false) as -> by (apply Z.leb_gt; lia).
  reflexivity.
Qed.

(** X7.  When there is nothing to draw, because [number_of_features <= 0] or
    because the network has no node, [create_cultural_network] succeeds
    whatever [number_of_traits] is: it returns the network, flagged as
    culturized, with both numbers recorded and with the empty vector as the
    culture of every node. *)
Theorem create_cultural_network_nothing_to_draw (w : world)
    (rand : nat -> Z) (nf nt : Z) :
  nf <= 0 \/ nodes (self w) = [] ->
  let r := create_cultural_network rand nf nt w in
  fst r = Ok (self (snd r)) /\
  culturized (self (snd r)) = true /\
  number_of_features (self (snd r)) = Some nf /\
  number_of_traits (self (snd r)) = Some nt /\
  node_ids (self (snd r)) = node_ids (self w) /\
  forall n, In n (node_ids (self w)) ->
            culture_of (self (snd r)) n = Some [].
Proof.
  intros H.
  set (w2 := mk_world (mk_net (nodes (self w)) (adj (self w))
                              (culturized (self w)) (Some nf) (Some nt))
                      (stdout w)).
  assert (comprehension (fun node_ =>
      nf0 <- get_number_of_features;;
      comprehension (fun feature =>
        nt0 <- get_number_of_traits;;
        lift (randint 1 nt0 (rand (node_ * Z.to_nat nf0 + feature)%nat)))
        (py_range nf0))
      (py_range (Z.of_nat (length (nodes (self w))))) w2
    = (Ok (map (fun _ => []) (py_range (Z.of_nat (length (nodes (self w)))))),
       w2)) as Hcult.
  { destruct H as [H|H].
    - apply comprehension_pure. intros node_ _.
      rewrite (bind_ok _ _ _ _ _ (get_number_of_features_run w2 nf eq_refl)).
      unfold py_range. assert (Z.to_nat nf = O) as -> by lia. reflexivity.
    - rewrite H. reflexivity. }
  set (cultures := map (fun _ : nat => @nil Z)
                       (py_range (Z.of_nat (length (nodes (self w))))))
    in Hcult.
  assert (length (node_ids (self w2)) = length cultures) as L.
  { unfold cultures, py_range, node_ids. simpl.
    now rewrite !length_map, length_seq, Nat2Z.id. }
  destruct (assign_cultures (node_ids (self w2)) cultures w2 (fun n H => H) L)
    as (g' & Hrun & Gi & Ga & Gc & Gf & Gt & Gin & _).
  intros r. subst r. rewrite (create_run w rand nf nt cultures g' Hcult Hrun).
  cbn [fst snd self culturized number_of_features number_of_traits].
  split; [reflexivity|]. split; [reflexivity|].
  split; [exact Gf|]. split; [exact Gt|]. split; [exact Gi|].
  intros n Hn. destruct (Gin n Hn) as (c & Hc & E).
  unfold cultures in Hc. apply in_map_iff in Hc. destruct Hc as (? & <- & _).
  exact E.
Qed.

(** X8.  With [number_of_traits >= 1] and distinct node identities,
    [create_cultural_network] gives the [i]-th node, in iteration order, the
    [number_of_features] draws numbered from [i * number_of_features] on,
    each brought into [1, number_of_traits]: the cultures afterwards depend
    on the draws alone, not on the cultures before.  The colour of every
    node is kept. *)
Theorem create_cultural_network_draws_row_by_row (w : world)
    (rand : nat -> Z) (nf nt : Z) :
  NoDup (node_ids (self w)) -> 1 <= nt ->
  let g' := self (snd (create_cultural_network rand nf nt w)) in
  node_cultures g'
  = map (fun i =>
           map (fun j => 1 + rand (i * Z.to_nat nf + j)%nat mod nt)
               (seq 0 (Z.to_nat nf)))
        (seq 0 (length (nodes (self w)))) /\
  forall n, color_of g' n = color_of (self w) n.
Proof.
  intros Hnd Hnt.
  set (w2 := mk_world (mk_net (nodes (self w)) (adj (self w))
                              (culturized (self w)) (Some nf) (Some nt))
                      (stdout w)).
  set (row := fun i : nat =>
         map (fun j : nat => 1 + rand (i * Z.to_nat nf + j)%nat mod nt)
             (seq 0 (Z.to_nat nf))).
  assert (comprehension (fun node_ =>
      nf0 <- get_number_of_features;;
      comprehension (fun feature =>
        nt0 <- get_number_of_traits;;
        lift (randint 1 nt0 (rand (node_ * Z.to_nat nf0 + feature)%nat)))
        (py_range nf0))
      (py_range (Z.of_nat (length (nodes (self w))))) w2
    = (Ok (map row (py_range (Z.of_nat (length (nodes (self w)))))), w2))
    as Hcult.
  { apply comprehension_pure. intros node_ _.
    rewrite (bind_ok _ _ _ _ _ (get_number_of_features_run w2 nf eq_refl)).
    apply comprehension_pure. intros feature _.
    rewrite (bind_ok _ _ _ _ _ (get_number_of_traits_run w2 nt eq_refl)).
    unfold lift, randint.
    assert ((1 <=? nt) = true) as -> by now apply Z.leb_le.
    now rewrite Z.sub_add. }
  set (cultures := map row (py_range (Z.of_nat (length (nodes (self w))))))
    in Hcult.
  assert (length (node_ids (self w2)) = length cultures) as L.
  { unfold cultures, py_range, node_ids. simpl.
    now rewrite !length_map, length_seq, Nat2Z.id. }
  destruct (assign_cultures_exact (node_ids (self w2)) cultures w2
              (fun n H => H) L)
    as (g' & Hrun & Gi & _ & _ & Gcol & _ & Gex).
  intros g0. subst g0.
  rewrite (create_run w rand nf nt cultures g' Hcult Hrun).
  cbn [snd self]. split.
  - unfold node_cultures.
    change (map (vector_of g') (node_ids g')
            = map row (seq 0 (length (nodes (self w))))).
    rewrite Gi, (Gex Hnd). unfold cultures, py_range. now rewrite Nat2Z.id.
  - intros n. exact (Gcol n).
Qed.

(** ** The range of [common_features] *)

Lemma full_agreement_iff_equal a : forall b,
  length a = length b ->
  (py_sum (map2 Z.eqb a b) = Z.of_nat (length a) <-> a = b).
Proof.
  induction a as [|x a IH]; intros [|y b] L; try discriminate.
  - simpl. tauto.
  - injection L as L. cbn [map2 py_sum length]. rewrite Nat2Z.inj_succ.
    pose proof (py_sum_bounds (map2 Z.eqb a b)) as B.
    rewrite (map2_length Z.eqb a b L) in B.
    destruct (x =? y) eqn:E; cbn [Z.b2z].
    + apply Z.eqb_eq in E. subst y. split.
      * intros H. f_equal. apply IH; [assumption|lia].
      * intros H. injection H as H. apply (IH b L) in H. lia.
    + apply Z.eqb_neq in E. split; [lia|]. intros H. congruence.
Qed.

(** X9.  Where numpy compares the integers themselves (traits below 2^63)
    and under the invariants of the data model, [common_features] of two
    nodes of a culturized network returns a count between 0 and
    [number_of_features], changes nothing, and returns
    [number_of_features] exactly when the two nodes carry the same culture
    vector (as a node does with itself). *)
Theorem common_features_range (w : world) (nf nt : Z) (a b : node) :
  exact_on_int64 ->
  nt < 2 ^ 63 ->
  culturized (self w) = true ->
  culture_invariants (self w) nf nt ->
  In a (node_ids (self w)) -> In b (node_ids (self w)) ->
  exists c,
    common_features a b w = (Ok (Some c), w) /\
    0 <= c <= nf /\
    (c = nf <-> culture_of (self w) a = culture_of (self w) b).
Proof.
  intros Hex Hnt Hc Hinv Ha Hb.
  destruct (invariants_common_count _ _ _ a b Hinv Ha Hb)
    as (ca & cb & Hca & Hcb & L & La & Hcc).
  destruct (invariants_culture _ _ _ _ _ Hinv Hca) as [_ Ra].
  destruct (invariants_culture _ _ _ _ _ Hinv Hcb) as [_ Rb].
  rewrite !cast_exact in Hcc by (try assumption; now apply range_fits with nt).
  exists (py_sum (map2 Z.eqb ca cb)).
  split; [now apply common_count_run|].
  pose proof (py_sum_bounds (map2 Z.eqb ca cb)) as B.
  rewrite (map2_length Z.eqb ca cb L), La in B.
  split; [exact B|].
  rewrite Hca, Hcb, <- La, (full_agreement_iff_equal ca cb L).
  split; congruence.
Qed.

(** ** The methods that only read *)

Lemma keeps_ret {A} w (a : A) : keeps w (ret a).
Proof. reflexivity. Qed.

Lemma keeps_raise {A} w e : keeps w (@raise A e).
Proof. reflexivity. Qed.

Lemma keeps_lift {A} w (r : result A) : keeps w (lift r).
Proof. reflexivity. Qed.

Lemma keeps_bind {A B} w (m : M A) (f : A -> M B) :
  keeps w m -> (forall a, keeps w (f a)) -> keeps w (bind m f).
Proof.
  unfold keeps, bind. intros Hm Hf.
  destruct (m w) as [[a|e] w'] eqn:E; simpl in Hm; subst w'.
  - apply Hf.
  - reflexivity.
Qed.

Lemma keeps_for_each {A S} w (l : list A) (body : A -> S -> M S) :
  (forall x s, keeps w (body x s)) -> forall s, keeps w (for_each l body s).
Proof.
  intros Hb. induction l as [|x l IH]; intros s; simpl.
  - apply keeps_ret.
  - apply keeps_bind; [apply Hb | intros s'; apply IH].
Qed.

Lemma keeps_get_culture w n : keeps w (get_culture n).
Proof. unfold keeps. now rewrite get_culture_run. Qed.

Lemma keeps_neighbors w n : keeps w (neighbors n).
Proof. unfold keeps. now rewrite neighbors_run. Qed.

Lemma keeps_get_number_of_features w : keeps w get_number_of_features.
Proof.
  unfold keeps, get_number_of_features. rewrite bind_get_self.
  destruct (number_of_features (self w)); reflexivity.
Qed.

Lemma keeps_common_features w a b :
  culturized (self w) = true -> keeps w (common_features a b).
Proof. intros Hc. unfold keeps. now rewrite common_features_run. Qed.

Lemma keeps_network_cultures set_iter w : keeps w (network_cultures set_iter).
Proof.
  unfold keeps, network_cultures. rewrite bind_get_self.
  destruct (culturized (self w)); [|reflexivity].
  rewrite (bind_ok _ _ _ _ _ (node_list_run w)).
  apply keeps_bind; [|intros; apply keeps_ret].
  apply keeps_for_each. intros n s.
  apply keeps_bind; [apply keeps_get_culture | intros; apply keeps_ret].
Qed.

Lemma keeps_cultural_sizes_and_max set_iter w :
  keeps w (cultural_sizes_and_max set_iter).
Proof.
  unfold keeps, cultural_sizes_and_max. rewrite bind_get_self.
  destruct (culturized (self w)); [|reflexivity].
  apply keeps_bind; [apply keeps_network_cultures|].
  intros [[culture_list k]|]; [|apply keeps_raise].
  apply keeps_bind.
  - apply keeps_for_each. intros c s.
    apply keeps_bind; [reflexivity|]. intros ns.
    apply keeps_bind; [|intros; apply keeps_ret].
    apply keeps_for_each. intros n s'.
    apply keeps_bind; [apply keeps_get_culture | intros; apply keeps_ret].
  - intros sizes. apply keeps_bind; [apply keeps_lift|].
    intros; apply keeps_ret.
Qed.

Lemma keeps_fixed_point_body w :
  culturized (self w) = true ->
  forall node_number check_network,
    keeps w
      (culture_ <- get_culture node_number;;
       neighbours_numbers <- neighbors node_number;;
       check_node <-
         for_each neighbours_numbers
           (fun neighbour_number check_node =>
              neighbour_culture <- get_culture neighbour_number;;
              cf <- common_features node_number neighbour_number;;
              nf <- get_number_of_features;;
              ret (check_node + Z.b2z (py_in cf [0; nf]))) 0;;
       again <- neighbors node_number;;
       ret (check_network
            + Z.b2z (check_node =? Z.of_nat (length again)))).
Proof.
  intros Hc n s.
  apply keeps_bind; [apply keeps_get_culture|]. intros _.
  apply keeps_bind; [apply keeps_neighbors|]. intros l.
  apply keeps_bind.
  - apply keeps_for_each. intros m s'.
    apply keeps_bind; [apply keeps_get_culture|]. intros _.
    apply keeps_bind; [now apply keeps_common_features|]. intros cf.
    apply keeps_bind; [apply keeps_get_number_of_features|].
    intros; apply keeps_ret.
  - intros check_node.
    apply keeps_bind; [apply keeps_neighbors | intros; apply keeps_ret].
Qed.

Lemma keeps_fixed_point w : keeps w fixed_point.
Proof.
  unfold keeps, fixed_point. rewrite bind_get_self.
  destruct (culturized (self w)) eqn:Hc; [|reflexivity].
  rewrite (bind_ok _ _ _ _ _ (node_list_run w)).
  apply keeps_bind.
  - apply keeps_for_each. now apply keeps_fixed_point_body.
  - intros s. apply keeps_bind; [reflexivity | intros; apply keeps_ret].
Qed.

(** X10.  [fixed_point], [network_cultures] and [cultural_sizes_and_max]
    never change the network nor print, whether they return or raise, and
    whatever state the network is in; [common_features] never changes the
    network, and prints nothing on a culturized one. *)
Theorem queries_only_read (w : world)
    (set_iter : list (list Z) -> list (list Z)) (a b : node) :
  snd (fixed_point w) = w /\
  snd (network_cultures set_iter w) = w /\
  snd (cultural_sizes_and_max set_iter w) = w /\
  self (snd (common_features a b w)) = self w /\
  (culturized (self w) = true -> snd (common_features a b w) = w).
Proof.
  split; [apply keeps_fixed_point|].
  split; [apply keeps_network_cultures|].
  split; [apply keeps_cultural_sizes_and_max|].
  split; [|apply keeps_common_features].
  destruct (culturized (self w)) eqn:Hc.
  - now rewrite (keeps_common_features w a b Hc).
  - unfold common_features. now rewrite bind_get_self, Hc.
Qed.

(** ** A node without culture *)

Lemma for_each_raises {A S} w (bad : A -> Prop) (l : list A)
      (body : A -> S -> M S) :
  (forall x s, keeps w (body x s)) ->
  (forall x s, bad x -> exists e, fst (body x s w) = Raise e) ->
  (exists x, In x l /\ bad x) ->
  forall s, exists e, for_each l body s w = (Raise e, w).
Proof.
  intros Hk Hbad. induction l as [|x l IH]; intros (y & Hy & By) s.
  - destruct Hy.
  - simpl. unfold bind at 1.
    pose proof (Hk x s) as K. unfold keeps in K.
    destruct (body x s w) as [[s'|e] w'] eqn:E; simpl in K; subst w'.
    + apply IH. destruct Hy as [<-|Hy]; [|eauto].
      destruct (Hbad x s By) as [e He]. rewrite E in He. discriminate.
    + eauto.
Qed.

Lemma collect_cultures_raises w (l : list node) :
  (exists n, In n l /\ culture_of (self w) n = None) ->
  forall added : list (list Z),
    for_each l
      (fun node_number added =>
         c <- get_culture node_number;; ret (added ++ [c])) added w
    = (Raise KeyError, w).
Proof.
  induction l as [|x l IH]; intros (n & Hn & Hnone) added.
  - destruct Hn.
  - simpl. rewrite bind_assoc, bind_get_culture.
    destruct (culture_of (self w) x) as [c|] eqn:E; [|reflexivity].
    rewrite bind_ret. apply IH. exists n. split; [|assumption].
    destruct Hn as [<-|Hn]; [congruence|assumption].
Qed.

Lemma network_cultures_raises set_iter w n :
  culturized (self w) = true ->
  In n (node_ids (self w)) -> culture_of (self w) n = None ->
  network_cultures set_iter w = (Raise KeyError, w).
Proof.
  intros Hc Hn Hnone. unfold network_cultures.
  rewrite bind_get_self, Hc.
  rewrite (bind_ok _ _ _ _ _ (node_list_run w)).
  unfold bind at 1. rewrite collect_cultures_raises; eauto.
Qed.

(** X11.  On a culturized network with a node that carries no culture (one
    added after the initialisation, say), [network_cultures],
    [cultural_sizes_and_max] and [colorea_nodos] raise [KeyError] and
    [fixed_point] raises as well; none of them changes the network, and
    [colorea_nodos] colours no node at all. *)
Theorem node_without_culture_raises (w : world)
    (set_iter : list (list Z) -> list (list Z)) (n : node) :
  culturized (self w) = true ->
  In n (node_ids (self w)) ->
  culture_of (self w) n = None ->
  network_cultures set_iter w = (Raise KeyError, w) /\
  cultural_sizes_and_max set_iter w = (Raise KeyError, w) /\
  colorea_nodos set_iter w = (Raise KeyError, w) /\
  exists e, fixed_point w = (Raise e, w).
Proof.
  intros Hc Hn Hnone.
  pose proof (network_cultures_raises set_iter w n Hc Hn Hnone) as Hnc.
  split; [exact Hnc|]. split; [|split].
  - unfold cultural_sizes_and_max. rewrite bind_get_self, Hc.
    unfold bind at 1. now rewrite Hnc.
  - unfold colorea_nodos. rewrite bind_get_self, Hc.
    rewrite (bind_ok _ _ _ _ _ (node_list_run w)).
    destruct (node_ids (self w)) as [|x l]; [destruct Hn|].
    simpl for_each. rewrite !bind_assoc, bind_get_culture.
    destruct (culture_of (self w) x); [|reflexivity].
    rewrite bind_assoc. unfold bind at 1. now rewrite Hnc.
  - unfold fixed_point. rewrite bind_get_self, Hc.
    rewrite (bind_ok _ _ _ _ _ (node_list_run w)).
    destruct (for_each_raises w (fun x => culture_of (self w) x = None)
                (node_ids (self w)) _
                (keeps_fixed_point_body w Hc)) with (s := 0) as [e He].
    + intros x s Hx. rewrite bind_get_culture, Hx. exists KeyError.
      reflexivity.
    + exists n. split; assumption.
    + exists e. unfold bind at 1. now rewrite He.
Qed.

(** ** More on the cluster analyzer and the colorer *)

Lemma fold_max_spec (l : list Z) : forall x,
  x <= fold_left Z.max l x /\
  Forall (fun y => y <= fold_left Z.max l x) l /\
  In (fold_left Z.max l x) (x :: l).
Proof.
  induction l as [|y l IH]; intros x; simpl.
  - split; [lia|]. split; [constructor | now left].
  - destruct (IH (Z.max x y)) as (H1 & H2 & H3).
    split; [lia|]. split.
    + constructor; [lia | exact H2].
    + destruct H3 as [H3|H3]; [|auto].
      destruct (Z.max_spec x y) as [[_ E]|[_ E]]; rewrite E in H3 |- *; auto.
Qed.

Lemma py_max_spec l mx :
  py_max l = Ok mx -> In mx l /\ Forall (fun y => y <= mx) l.
Proof.
  destruct l as [|x l]; [discriminate|]. simpl. intros H.
  injection H as <-.
  destruct (fold_max_spec l x) as (H1 & H2 & H3).
  split; [auto|]. constructor; assumption.
Qed.

Lemma cluster_size_bounds g c :
  In c (node_cultures g) ->
  1 <= cluster_size g c <= Z.of_nat (length (nodes g)).
Proof.
  intros H. unfold cluster_size.
  pose proof (filter_length_le (fun c' => list_eqb c' c) (node_cultures g))
    as Hle.
  rewrite node_cultures_length in Hle.
  assert (In c (filter (fun c' => list_eqb c' c) (node_cultures g))) as Hin.
  { apply filter_In. split; [assumption | apply list_eqb_refl]. }
  destruct (filter _ (node_cultures g)); [destruct Hin|].
  simpl length in *. lia.
Qed.

Lemma In_node_cultures g c :
  cultured g ->
  (In c (node_cultures g) <->
   exists n, In n (node_ids g) /\ culture_of g n = Some c).
Proof.
  intros Hcult. unfold node_cultures. rewrite in_map_iff. split.
  - intros (n & <- & Hn). exists n. split; [assumption|].
    now apply cultured_get.
  - intros (n & Hn & E). exists n. split; [|assumption].
    unfold vector_of. now rewrite E.
Qed.

Section SetOrderMore.

Variable set_iter : list (list Z) -> list (list Z).
Hypothesis set_iter_NoDup : forall l, NoDup (set_iter l).
Hypothesis set_iter_In : forall l x, In x (set_iter l) <-> In x l.

(** X12.  On a culturized network in which every node carries a culture,
    [network_cultures] returns the culture vectors that occur in the
    network, each once, together with their number; that number is at most
    the number of nodes, and at least 1 when there is a node. *)
Theorem network_cultures_lists_distinct_cultures (w : world) :
  culturized (self w) = true ->
  cultured (self w) ->
  exists enum,
    network_cultures set_iter w
    = (Ok (Some (enum, Z.of_nat (length enum))), w) /\
    NoDup enum /\
    (forall c, In c enum <->
               exists n, In n (node_ids (self w)) /\
                         culture_of (self w) n = Some c) /\
    (length enum <= length (nodes (self w)))%nat /\
    (nodes (self w) <> [] -> (1 <= length enum)%nat).
Proof.
  intros Hc Hcult. exists (set_iter (node_cultures (self w))).
  split; [now apply network_cultures_run|].
  split; [apply set_iter_NoDup|]. split; [|split].
  - intros c. rewrite set_iter_In. now apply In_node_cultures.
  - rewrite <- node_cultures_length.
    apply NoDup_incl_length; [apply set_iter_NoDup|].
    intros c Hin. now apply set_iter_In.
  - intros Hne.
    destruct (set_iter (node_cultures (self w))) as [|e E] eqn:Ee;
      [|simpl; lia].
    exfalso. unfold node_cultures, node_ids in Ee.
    destruct (nodes (self w)) as [|[n d] l]; [congruence|].
    simpl in Ee.
    assert (In (vector_of (self w) n)
               (set_iter (vector_of (self w) n
                          :: map (vector_of (self w)) (map fst l)))) as Hin
      by (apply set_iter_In; now left).
    rewrite Ee in Hin. destruct Hin.
Qed.

(** X13.  On a culturized network with at least one node, every node
    carrying a culture, [cultural_sizes_and_max] returns one size for each
    culture that [network_cultures] lists, in the same order, the size
    being the number of nodes that hold that culture; every size is at
    least 1, the maximum returned is one of the sizes, no size exceeds it,
    and it is at most the number of nodes. *)
Theorem cultural_sizes_and_max_aligned (w : world) :
  culturized (self w) = true ->
  cultured (self w) ->
  nodes (self w) <> [] ->
  exists enum k sizes mx,
    network_cultures set_iter w = (Ok (Some (enum, k)), w) /\
    cultural_sizes_and_max set_iter w = (Ok (Some (sizes, mx)), w) /\
    sizes = map (cluster_size (self w)) enum /\
    Forall (fun s => 1 <= s <= mx) sizes /\
    In mx sizes /\
    mx <= Z.of_nat (length (nodes (self w))).
Proof.
  intros Hc Hcult Hne.
  set (enum := set_iter (node_cultures (self w))).
  assert (forall c, In c enum ->
            1 <= cluster_size (self w) c <= Z.of_nat (length (nodes (self w))))
    as Hb.
  { intros c Hin. apply cluster_size_bounds. now apply set_iter_In. }
  assert (enum <> []) as Hne'.
  { intros E. unfold enum, node_cultures, node_ids in E.
    destruct (nodes (self w)) as [|[n d] l]; [congruence|].
    simpl in E.
    assert (In (vector_of (self w) n)
               (set_iter (vector_of (self w) n
                          :: map (vector_of (self w)) (map fst l)))) as Hin
      by (apply set_iter_In; now left).
    rewrite E in Hin. destruct Hin. }
  destruct (py_max (map (cluster_size (self w)) enum)) as [mx|] eqn:Emax.
  2:{ destruct enum; [congruence|discriminate]. }
  destruct (py_max_spec _ _ Emax) as [Hin Hall].
  exists enum, (Z.of_nat (length enum)),
         (map (cluster_size (self w)) enum), mx.
  split; [now apply network_cultures_run|]. split.
  - rewrite (cultural_sizes_and_max_run set_iter w Hc Hcult).
    fold enum. now rewrite Emax.
  - split; [reflexivity|]. split; [|split; [exact Hin|]].
    + rewrite Forall_forall in Hall. apply Forall_forall.
      intros s Hs. split; [|now apply Hall].
      apply in_map_iff in Hs. destruct Hs as (c & <- & Hcin).
      now apply Hb.
    + apply in_map_iff in Hin. destruct Hin as (c & <- & Hcin).
      now apply Hb.
Qed.

(** X14.  The colours that [colorea_nodos] assigns label the clusters: two
    nodes get the same colour exactly when they carry the same culture
    vector, and every colour is below the number of distinct cultures that
    [network_cultures] reports. *)
Theorem colorea_nodos_labels_clusters (w : world) :
  culturized (self w) = true ->
  cultured (self w) ->
  exists enum k colors g',
    network_cultures set_iter w = (Ok (Some (enum, k)), w) /\
    colorea_nodos set_iter w = (Ok (Some colors), mk_world g' (stdout w)) /\
    (forall n m, In n (node_ids (self w)) -> In m (node_ids (self w)) ->
       (color_of g' n = color_of g' m <->
        culture_of (self w) n = culture_of (self w) m)) /\
    (forall n, In n (node_ids (self w)) ->
       exists i, color_of g' n = Some i /\ Z.of_nat i < k).
Proof.
  intros Hc Hcult.
  destruct (color_loop set_iter set_iter_In (self w) Hcult
              (node_ids (self w)) [] w Hc eq_refl
              (fun m => eq_refl) (fun m H => H))
    as (g' & Hrun & Gc & Gi & Gcul & Gin & _).
  set (enum := set_iter (node_cultures (self w))) in *.
  assert (forall n, In n (node_ids (self w)) ->
            nth_error enum (position (vector_of (self w) n) enum)
            = Some (vector_of (self w) n)) as Hpos.
  { intros n Hn. apply list_index_position. apply set_iter_In.
    unfold node_cultures. now apply in_map. }
  exists enum, (Z.of_nat (length enum)),
         (map (fun n => position (vector_of (self w) n) enum)
              (node_ids (self w))), g'.
  split; [now apply network_cultures_run|]. split; [|split].
  - unfold colorea_nodos. rewrite bind_get_self, Hc.
    rewrite (bind_ok _ _ _ _ _ (node_list_run w)).
    now rewrite (bind_ok _ _ _ _ _ Hrun).
  - intros n m Hn Hm. rewrite (Gin n Hn), (Gin m Hm).
    rewrite (cultured_get _ _ Hcult Hn), (cultured_get _ _ Hcult Hm).
    split.
    + intros E. injection E as E.
      pose proof (Hpos n Hn) as Pn. pose proof (Hpos m Hm) as Pm.
      rewrite E in Pn. congruence.
    + intros E. injection E as E. now rewrite E.
  - intros n Hn. exists (position (vector_of (self w) n) enum).
    split; [now apply Gin|].
    apply Nat2Z.inj_lt. apply nth_error_Some. rewrite (Hpos n Hn).
    discriminate.
Qed.

(** X15.  Colouring twice is colouring once: on a culturized network in
    which every node carries a culture, a second call of [colorea_nodos]
    returns the same list as the first and leaves every node with the
    colour and the culture it had after the first. *)
Theorem colorea_nodos_twice (w : world) :
  culturized (self w) = true ->
  cultured (self w) ->
  let r1 := colorea_nodos set_iter w in
  let r2 := colorea_nodos set_iter (snd r1) in
  (exists colors, fst r1 = Ok (Some colors) /\ fst r2 = Ok (Some colors)) /\
  (forall n, color_of (self (snd r2)) n = color_of (self (snd r1)) n) /\
  (forall n, culture_of (self (snd r2)) n = culture_of (self w) n).
Proof.
  intros Hc Hcult.
  destruct (color_loop set_iter set_iter_In (self w) Hcult
              (node_ids (self w)) [] w Hc eq_refl
              (fun m => eq_refl) (fun m H => H))
    as (g1 & Hrun1 & Gc1 & Gi1 & Gcul1 & Gin1 & Gout1).
  assert (colorea_nodos set_iter w
          = (Ok (Some (map (fun n => position (vector_of (self w) n)
                              (set_iter (node_cultures (self w))))
                           (node_ids (self w)))),
             mk_world g1 (stdout w))) as E1.
  { unfold colorea_nodos. rewrite bind_get_self, Hc.
    rewrite (bind_ok _ _ _ _ _ (node_list_run w)).
    now rewrite (bind_ok _ _ _ _ _ Hrun1). }
  assert (cultured g1) as Hcult1.
  { intros n Hn. rewrite Gi1 in Hn. rewrite Gcul1. now apply Hcult. }
  destruct (color_loop set_iter set_iter_In g1 Hcult1
              (node_ids g1) [] (mk_world g1 (stdout w)) Gc1 eq_refl
              (fun m => eq_refl) (fun m H => H))
    as (g2 & Hrun2 & Gc2 & Gi2 & Gcul2 & Gin2 & Gout2).
  cbn [self stdout] in Hrun2, Gout2.
  assert (node_cultures g1 = node_cultures (self w)) as Hnc
    by (apply node_cultures_ext; assumption).
  assert (forall n, vector_of g1 n = vector_of (self w) n) as Hv
    by (intros n; unfold vector_of; now rewrite Gcul1).
  assert (colorea_nodos set_iter (mk_world g1 (stdout w))
          = (Ok (Some (map (fun n => position (vector_of (self w) n)
                              (set_iter (node_cultures (self w))))
                           (node_ids (self w)))),
             mk_world g2 (stdout w))) as E2.
  { unfold colorea_nodos. rewrite bind_get_self. cbn [self]. rewrite Gc1.
    rewrite (bind_ok _ _ _ _ _ (node_list_run (mk_world g1 (stdout w)))).
    cbn [self]. rewrite (bind_ok _ _ _ _ _ Hrun2). unfold ret. simpl app.
    rewrite Hnc, Gi1. do 3 f_equal. apply map_ext. intros n. now rewrite Hv. }
  intros r1 r2. subst r1 r2. rewrite E1. cbn [snd fst].
  rewrite E2. cbn [snd fst self]. split; [eauto|]. split.
  - intros n. destruct (in_dec Nat.eq_dec n (node_ids (self w))) as [Hn|Hn].
    + rewrite (Gin1 n Hn).
      assert (In n (node_ids g1)) as Hn1 by now rewrite Gi1.
      rewrite (Gin2 n Hn1). now rewrite Hnc, Hv.
    + apply Gout2. now rewrite Gi1.
  - intros n. rewrite Gcul2. apply Gcul1.
Qed.

End SetOrderMore.

(** ** [fixed_point] misses no move *)

Lemma forallb_false {A} (p : A -> bool) (l : list A) :
  forallb p l = false -> exists x, In x l /\ p x = false.
Proof.
  induction l as [|x l IH]; simpl; [discriminate|].
  destruct (p x) eqn:E; simpl.
  - intros H. destruct (IH H) as (y & Hy & Py). eauto.
  - intros _. eauto.
Qed.

Lemma partial_agreement_disagrees a : forall b k,
  length a = length b ->
  py_sum (map2 Z.eqb a b) <> Z.of_nat (length a) ->
  true_indices k (map2 (fun x y => negb (x =? y)) a b) <> [].
Proof.
  induction a as [|x a IH]; intros [|y b] k L H; try discriminate.
  - simpl in H. congruence.
  - injection L as L. cbn [map2 py_sum true_indices length] in *.
    rewrite Nat2Z.inj_succ in H.
    destruct (x =? y); cbn [negb Z.b2z] in *; [|discriminate].
    apply IH; [assumption|lia].
Qed.

Lemma replace_nth_same {A} (l : list A) i v :
  (i < length l)%nat -> nth_error (replace_nth l i v) i = Some v.
Proof.
  revert i. induction l as [|x l IH]; intros [|i] H; simpl in *;
    try lia; [reflexivity|].
  apply IH. lia.
Qed.

Lemma binomial1_between c n :
  0 < c < n -> binomial1 0 (inject_Z c / inject_Z n) = Ok 1.
Proof.
  intros Hc. unfold binomial1. rewrite ratio_range by lia.
  assert (Qle_bool (inject_Z c / inject_Z n) (unit_sample 0) = false) as ->;
    [|reflexivity].
  destruct (Qle_bool _ _) eqn:E; [|reflexivity].
  apply Qle_bool_iff in E. unfold Qle in E.
  rewrite ratio_num in E by lia.
  change (unit_sample 0) with (Qmake 0 (2 ^ 53)) in E.
  cbn [Qnum Qden] in E. lia.
Qed.

(** A call of [step] in which the exchange takes place. *)
Lemma step_exchange_run w rnd verbose agent nbrs partner ca cb :
  culturized (self w) = true ->
  random_choice (agent_draw rnd) (node_ids (self w)) = Ok agent ->
  lookup agent (adj (self w)) = Some nbrs ->
  random_choice (neighbour_draw rnd) nbrs = Ok partner ->
  culture_of (self w) agent = Some ca ->
  culture_of (self w) partner = Some cb ->
  length ca = length cb ->
  true_indices 0 (map2 (fun x y => negb (x =? y)) (cast ca cb) (cast cb ca))
  <> [] ->
  binomial1 (uniform_draw rnd)
    (inject_Z (py_sum (map2 Z.eqb (cast ca cb) (cast cb ca)))
     / inject_Z (Z.of_nat (length ca)))
  = Ok 1 ->
  exists idx x,
    In idx (true_indices 0
              (map2 (fun x y => negb (x =? y)) (cast ca cb) (cast cb ca))) /\
    nth_error ca idx = Some x /\
    self (snd (step rnd verbose w))
    = with_culture (self w) partner (replace_nth cb idx x).
Proof.
  intros Hc Ea En Ep Hca Hcb L HD Hbin.
  pose proof (np_eq_same_length ca cb L) as Harr.
  pose proof (np_ne_same_length ca cb L) as Hd.
  destruct (random_choice_nonempty (feature_draw rnd) _ HD) as [idx Hidx].
  pose proof (random_choice_In _ _ _ Hidx) as Hin.
  destruct (disagreement_in_range ca cb idx L Hin) as [Hlta Hlt].
  destruct (nth_error ca idx) as [x|] eqn:Hx;
    [|apply nth_error_None in Hx; lia].
  exists idx, x. split; [exact Hin|]. split; [exact Hx|].
  unfold step. rewrite bind_get_self, snd_bind_get_self, Hc.
  rewrite (bind_ok _ _ _ _ _ (node_list_run w)).
  rewrite bind_lift, Ea, bind_neighbors, En, bind_lift, Ep.
  rewrite bind_get_culture, Hca, bind_get_culture, Hcb.
  rewrite bind_lift, Hd.
  rewrite bind_common_features by assumption.
  rewrite Hca, Hcb, Harr, bind_lift.
  unfold truediv.
  destruct (Z.of_nat (length ca) =? 0) eqn:E0;
    [apply Z.eqb_eq in E0; lia|].
  assert (Nat.ltb 0 (length (true_indices 0
            (map2 (fun x y => negb (Z.eqb x y)) (cast ca cb) (cast cb ca))))
          = true) as ->.
  { apply Nat.ltb_lt.
    destruct (true_indices 0 _); [congruence|simpl; lia]. }
  rewrite bind_assoc, bind_lift, Hbin, bind_ret.
  cbn [Z.eqb negb]. rewrite bind_lift, Hidx.
  assert (forall w1, self w1 = self w ->
    self (snd ((source <- get_culture agent;;
      v <- lift (list_get source idx);;
      target <- get_culture partner;;
      target' <- lift (list_set target idx v);;
      set_culture partner target') w1))
    = with_culture (self w) partner (replace_nth cb idx x)) as T.
  { intros w1 Hw1. rewrite bind_get_culture, Hw1, Hca, bind_lift.
    unfold list_get. rewrite Hx.
    rewrite bind_get_culture, Hw1, Hcb, bind_lift.
    unfold list_set.
    assert (Nat.ltb idx (length cb) = true) as -> by now apply Nat.ltb_lt.
    now rewrite set_culture_self, Hw1. }
  destruct verbose.
  - repeat (rewrite bind_assoc || rewrite bind_print). now apply T.
  - rewrite bind_ret. now apply T.
Qed.

(** X16.  The fixed-point test misses no move: where numpy compares the
    integers themselves (traits below 2^63), on a culturized network that
    satisfies the invariants of the data model, when [fixed_point] returns
    false there are draws for which [step] changes the network. *)
Theorem not_fixed_point_can_change (w : world) (nf nt : Z) :
  exact_on_int64 ->
  nt < 2 ^ 63 ->
  culturized (self w) = true ->
  culture_invariants (self w) nf nt ->
  graph_ok (self w) ->
  fst (fixed_point w) = Ok (Some false) ->
  exists rnd, self (snd (step rnd false w)) <> self w.
Proof.
  intros Hex Hnt Hc Hinv Hg Hfp.
  rewrite (fixed_point_run w nf nt Hc Hinv Hg) in Hfp. simpl in Hfp.
  assert (stable (self w) nf = false) as Hs by congruence. clear Hfp.
  apply forallb_false in Hs. destruct Hs as (n & Hn & Hs).
  apply forallb_false in Hs. destruct Hs as (m & Hm & Hs).
  destruct (Hg n Hn) as (l & Hl & Hincl).
  unfold neighbours_of in Hm. rewrite Hl in Hm.
  destruct (invariants_common_count _ _ _ n m Hinv Hn (Hincl m Hm))
    as (ca & cb & Hca & Hcb & L & La & Hcc).
  destruct (invariants_culture _ _ _ _ _ Hinv Hca) as [_ Ra].
  destruct (invariants_culture _ _ _ _ _ Hinv Hcb) as [_ Rb].
  pose proof (cast_exact ca cb Hex (range_fits ca nt Hnt Ra)
                (range_fits cb nt Hnt Rb)) as Ca.
  pose proof (cast_exact cb ca Hex (range_fits cb nt Hnt Rb)
                (range_fits ca nt Hnt Ra)) as Cb.
  unfold stable_pair in Hs. rewrite Hcc in Hs. simpl in Hs.
  rewrite orb_false_r in Hs. apply orb_false_iff in Hs.
  rewrite !Z.eqb_neq in Hs. destruct Hs as [N0 Nn].
  rewrite Ca, Cb in N0, Nn.
  pose proof (py_sum_bounds (map2 Z.eqb ca cb)) as B.
  rewrite (map2_length Z.eqb ca cb L), La in B.
  destruct (random_choice_any _ _ Hn) as [ra Hra].
  destruct (random_choice_any _ _ Hm) as [rn Hrn].
  exists (mk_draws ra rn 0 0).
  destruct (step_exchange_run w (mk_draws ra rn 0 0) false n l m ca cb)
    as (idx & x & Hin & Hx & E); auto.
  - rewrite Ca, Cb. apply partial_agreement_disagrees; [assumption|lia].
  - cbn [uniform_draw]. rewrite Ca, Cb, La. apply binomial1_between. lia.
  - rewrite Ca, Cb in Hin.
    destruct (disagreement_index ca cb idx Hin) as (x' & y & Hx' & Hy & Hxy).
    assert (x' = x) as -> by congruence.
    rewrite E. intros Heq.
    assert (culture_of (with_culture (self w) m (replace_nth cb idx x)) m
            = Some cb) as Hc' by now rewrite Heq.
    rewrite (with_culture_same _ _ _ cb Hcb) in Hc'.
    injection Hc' as Hc'.
    assert (nth_error (replace_nth cb idx x) idx = Some x) as Hr.
    { apply replace_nth_same. apply nth_error_Some. congruence. }
    rewrite Hc' in Hr. congruence.
Qed.

(** X17.  Consensus is a fixed point: on a culturized network that satisfies
    the invariants of the data model and in which all nodes carry the same
    culture vector, [fixed_point] returns true. *)
Theorem consensus_is_fixed_point (w : world) (nf nt : Z) (c : list Z) :
  culturized (self w) = true ->
  culture_invariants (self w) nf nt ->
  graph_ok (self w) ->
  (forall n, In n (node_ids (self w)) -> culture_of (self w) n = Some c) ->
  fixed_point w = (Ok (Some true), w).
Proof.
  intros Hc Hinv Hg Hall.
  rewrite (fixed_point_run w nf nt Hc Hinv Hg). do 3 f_equal.
  unfold stable. apply forallb_forall. intros n Hn.
  apply forallb_forall. intros m Hm.
  destruct (Hg n Hn) as (l & Hl & Hincl).
  unfold neighbours_of in Hm. rewrite Hl in Hm.
  destruct (invariants_common_count _ _ _ n m Hinv Hn (Hincl m Hm))
    as (ca & cb & Hca & Hcb & L & La & Hcc).
  rewrite (Hall n Hn) in Hca. rewrite (Hall m (Hincl m Hm)) in Hcb.
  assert (ca = c) as -> by congruence.
  assert (cb = c) as -> by congruence.
  pose proof (proj2 (full_agreement_iff_equal (cast c c) (cast c c) eq_refl)
                eq_refl) as E.
  rewrite cast_length in E.
  unfold stable_pair. rewrite Hcc. simpl.
  rewrite E, La, Z.eqb_refl. now rewrite orb_true_r.
Qed.

(** ** [list_cultures] *)

Example list_cultures_two_nodes :
  list_cultures (mk_world two_nodes [])
  = (Ok tt, mk_world two_nodes ["0 :  [1, 2, 3]"; "1 :  [1, 2, 4]"]%string).
Proof. reflexivity. Qed.

Lemma list_cultures_loop g (l : list node) : forall out,
  (forall n, In n l -> culture_of g n = Some (vector_of g n)) ->
  for_each l
    (fun elem _ => c <- get_culture elem;; print (culture_line elem c))
    tt (mk_world g out)
  = (Ok tt,
     mk_world g (out ++ map (fun n => culture_line n (vector_of g n)) l)).
Proof.
  induction l as [|x l IH]; intros out H; simpl.
  - unfold ret. now rewrite app_nil_r.
  - rewrite bind_assoc, bind_get_culture. cbn [self].
    rewrite (H x (or_introl eq_refl)), bind_print. cbn [self stdout].
    rewrite IH by (intros n Hn; apply H; now right).
    now rewrite <- app_assoc.
Qed.

(** X18.  On a culturized network in which every node carries a culture,
    [list_cultures] prints one line for every node, in iteration order, made
    of the node and its culture vector; it returns nothing and leaves the
    network as it is. *)
Theorem list_cultures_prints_every_node (w : world) :
  culturized (self w) = true ->
  cultured (self w) ->
  list_cultures w
  = (Ok tt,
     mk_world (self w)
       (stdout w ++ map (fun n => culture_line n (vector_of (self w) n))
                        (node_ids (self w)))).
Proof.
  intros Hc Hcult. unfold list_cultures. rewrite bind_get_self, Hc.
  rewrite (bind_ok _ _ _ _ _ (node_list_run w)).
  destruct w as [g out]. cbn [self stdout] in *.
  apply list_cultures_loop. intros n Hn. now apply cultured_get.
Qed.

(** X19.  When some node of a culturized network carries no culture,
    [list_cultures] prints the lines of the nodes that come before the first
    such node and then raises [KeyError]; the network is left as it is. *)
Theorem list_cultures_stops_at_missing_culture (w : world)
    (before after : list node) (n : node) :
  culturized (self w) = true ->
  node_ids (self w) = before ++ n :: after ->
  (forall m, In m before -> exists c, culture_of (self w) m = Some c) ->
  culture_of (self w) n = None ->
  list_cultures w
  = (Raise KeyError,
     mk_world (self w)
       (stdout w ++ map (fun m => culture_line m (vector_of (self w) m))
                        before)).
Proof.
  intros Hc Hids Hbefore Hnone. unfold list_cultures.
  rewrite bind_get_self, Hc.
  rewrite (bind_ok _ _ _ _ _ (node_list_run w)), Hids.
  destruct w as [g out]. cbn [self stdout] in *.
  clear Hids Hc. revert out.
  induction before as [|x l IH]; intros out; simpl.
  - rewrite bind_assoc, bind_get_culture. cbn [self]. rewrite Hnone.
    now rewrite app_nil_r.
  - rewrite bind_assoc, bind_get_culture. cbn [self].
    destruct (Hbefore x (or_introl eq_refl)) as [c Hx].
    rewrite Hx, bind_print. cbn [self stdout].
    unfold bind at 1.
    rewrite IH by (intros m Hm; apply Hbefore; now right).
    unfold vector_of at 2. rewrite Hx. now rewrite <- app_assoc.
Qed.

(** ** When [step] returns *)

Lemma binomial1_in_range raw c n :
  0 <= c <= n -> 0 < n ->
  exists b, binomial1 raw (inject_Z c / inject_Z n) = Ok b.
Proof.
  intros Hc Hn. unfold binomial1. rewrite ratio_range by assumption. eauto.
Qed.

(** X20.  On a culturized network that satisfies the invariants of the data
    model, with [number_of_features >= 1], a call of [step] whose drawn
    agent has a neighbour raises nothing: it returns the network, for every
    outcome of the remaining draws. *)
Theorem step_returns_with_a_partner (w : world) (rnd : draws)
    (verbose : bool) (nf nt : Z) (agent : node) (nbrs : list node) :
  culturized (self w) = true ->
  culture_invariants (self w) nf nt ->
  graph_ok (self w) ->
  1 <= nf ->
  random_choice (agent_draw rnd) (node_ids (self w)) = Ok agent ->
  lookup agent (adj (self w)) = Some nbrs ->
  nbrs <> [] ->
  fst (step rnd verbose w) = Ok (self (snd (step rnd verbose w))).
Proof.
  intros Hc Hinv Hg Hnf Ea En Hne.
  pose proof (random_choice_In _ _ _ Ea) as Hain.
  destruct (random_choice_nonempty (neighbour_draw rnd) nbrs Hne)
    as [partner Ep].
  destruct (Hg agent Hain) as (l & Hl & Hincl).
  assert (l = nbrs) as -> by congruence.
  pose proof (Hincl partner (random_choice_In _ _ _ Ep)) as Hpin.
  destruct (invariants_common_count _ _ _ agent partner Hinv Hain Hpin)
    as (ca & cb & Hca & Hcb & L & La & _).
  assert (0 <= py_sum (map2 Z.eqb (cast ca cb) (cast cb ca)) <= nf) as B.
  { pose proof (py_sum_bounds (map2 Z.eqb (cast ca cb) (cast cb ca))) as B.
    rewrite map2_length in B by now rewrite !cast_length.
    now rewrite cast_length, La in B. }
  unfold step. rewrite bind_get_self, bind_then_self, Hc. cbn [fst snd].
  match goal with
  | |- match fst ?r with _ => _ end = _ =>
      assert (exists u, fst r = Ok u) as [u ->]; [|reflexivity]
  end.
  rewrite (bind_ok _ _ _ _ _ (node_list_run w)).
  rewrite bind_lift, Ea, bind_neighbors, En, bind_lift, Ep.
  rewrite bind_get_culture, Hca, bind_get_culture, Hcb.
  rewrite bind_lift, (np_ne_same_length ca cb L).
  rewrite bind_common_features by assumption.
  rewrite Hca, Hcb, (np_eq_same_length ca cb L), bind_lift.
  unfold truediv. rewrite La.
  destruct (nf =? 0) eqn:E0; [apply Z.eqb_eq in E0; lia|].
  set (D := true_indices 0
              (map2 (fun x y => negb (x =? y)) (cast ca cb) (cast cb ca))).
  destruct (Nat.ltb 0 (length D)) eqn:Hlen.
  2:{ rewrite bind_ret. simpl. eauto. }
  rewrite bind_assoc, bind_lift.
  destruct (binomial1_in_range (uniform_draw rnd) _ nf B) as [b Hb]; [lia|].
  rewrite Hb, bind_ret.
  destruct (b =? 0); cbn [negb]; [simpl; eauto|].
  assert (D <> []) as HD.
  { apply Nat.ltb_lt in Hlen. destruct D; [simpl in Hlen; lia|discriminate]. }
  destruct (random_choice_nonempty (feature_draw rnd) D HD) as [idx Hidx].
  rewrite bind_lift, Hidx.
  pose proof (random_choice_In _ _ _ Hidx) as Hin.
  destruct (disagreement_in_range ca cb idx L Hin) as [Hlta Hlt].
  destruct (nth_error ca idx) as [x|] eqn:Hx;
    [|apply nth_error_None in Hx; lia].
  assert (forall w1, self w1 = self w ->
    exists u, fst ((source <- get_culture agent;;
      v <- lift (list_get source idx);;
      target <- get_culture partner;;
      target' <- lift (list_set target idx v);;
      set_culture partner target') w1) = Ok u) as T.
  { intros w1 Hw1. rewrite bind_get_culture, Hw1, Hca, bind_lift.
    unfold list_get. rewrite Hx.
    rewrite bind_get_culture, Hw1, Hcb, bind_lift.
    unfold list_set.
    assert (Nat.ltb idx (length cb) = true) as -> by now apply Nat.ltb_lt.
    rewrite set_culture_ok; [simpl; eauto|].
    rewrite Hw1. exact Hpin. }
  destruct verbose.
  - repeat (rewrite bind_assoc || rewrite bind_print). now apply T.
  - rewrite bind_ret. now apply T.
Qed.

End WithNumpyMore.

(** ** The further properties at the example networks *)

Lemma numpy_exact_on_int64 : exact_on_int64.
Proof.
  intros a b v Ha Hb. unfold conv, numpy, numpy_conv, dtype_of.
  now rewrite Ha, Hb.
Defined.

Lemma two_nodes_graph_ok : graph_ok two_nodes.
Proof.
  intros n Hn. by_cases Hn; eexists; (split; [reflexivity|]);
    intros m Hm; by_cases Hm; simpl; auto.
Defined.

Lemma agreed_invariants : culture_invariants agreed 3 5.
Proof.
  split; [reflexivity|]. split; [reflexivity|].
  intros n Hn. by_cases Hn; eexists; (split; [reflexivity|]);
    (split; [reflexivity|]); repeat constructor; lia.
Defined.

Lemma agreed_graph_ok : graph_ok agreed.
Proof.
  intros n Hn. by_cases Hn; eexists; (split; [reflexivity|]);
    intros m Hm; by_cases Hm; simpl; auto.
Defined.

Lemma bare_distinct : NoDup (node_ids bare).
Proof.
  repeat constructor; simpl; intuition discriminate.
Defined.

Lemma step_preserves_invariants_witness :
  culture_invariants
    (self (snd (step (mk_draws 0 0 0 0) false (mk_world two_nodes []))))
    3 5 /\
  graph_ok
    (self (snd (step (mk_draws 0 0 0 0) false (mk_world two_nodes [])))).
Proof.
  exact (step_preserves_invariants (mk_world two_nodes [])
           (mk_draws 0 0 0 0) false 3 5
           two_nodes_invariants two_nodes_graph_ok).
Defined.

Lemma step_without_partner_raises_witness :
  step (mk_draws 0 0 0 0) false (mk_world lonely [])
  = (Raise IndexError, mk_world lonely []).
Proof.
  apply (step_without_partner_raises (mk_world lonely [])
           (mk_draws 0 0 0 0) false eq_refl).
  right. exists 0%nat. split; reflexivity.
Defined.

Lemma step_raises_agreement_by_one_witness :
  exists agent nbrs partner c,
    random_choice 0 (node_ids two_nodes) = Ok agent /\
    lookup agent (adj two_nodes) = Some nbrs /\
    random_choice 0 nbrs = Ok partner /\
    fst (common_features agent partner (mk_world two_nodes []))
    = Ok (Some c) /\
    0 < c < 3 /\
    fst (common_features agent partner
           (snd (step (mk_draws 0 0 0 0) false (mk_world two_nodes []))))
    = Ok (Some (c + 1)).
Proof.
  apply (step_raises_agreement_by_one (mk_world two_nodes [])
           (mk_draws 0 0 0 0) false 3 5 numpy_exact_on_int64 eq_refl
           two_nodes_invariants).
  simpl. intros H. discriminate H.
Defined.

Lemma create_cultural_network_without_traits_witness :
  create_cultural_network (fun k => Z.of_nat k) 2 0 (mk_world bare [])
  = (Raise ValueError,
     mk_world (mk_net (nodes bare) (adj bare) (culturized bare)
                      (Some 2) (Some 0)) []).
Proof.
  apply (create_cultural_network_without_traits (mk_world bare [])
           (fun k => Z.of_nat k) 2 0); [discriminate | lia | lia].
Defined.

Lemma create_cultural_network_nothing_to_draw_witness :
  let r := create_cultural_network (fun k => Z.of_nat k) 0 0
             (mk_world bare []) in
  fst r = Ok (self (snd r)) /\
  culturized (self (snd r)) = true /\
  number_of_features (self (snd r)) = Some 0 /\
  number_of_traits (self (snd r)) = Some 0 /\
  node_ids (self (snd r)) = node_ids bare /\
  forall n, In n (node_ids bare) -> culture_of (self (snd r)) n = Some [].
Proof.
  apply (create_cultural_network_nothing_to_draw (mk_world bare [])
           (fun k => Z.of_nat k) 0 0).
  left. lia.
Defined.

Lemma create_cultural_network_draws_row_by_row_witness :
  let g' := self (snd (create_cultural_network (fun k => Z.of_nat k) 2 3
                         (mk_world bare []))) in
  node_cultures g'
  = map (fun i =>
           map (fun j => 1 + Z.of_nat (i * Z.to_nat 2 + j) mod 3)
               (seq 0 (Z.to_nat 2)))
        (seq 0 (length (nodes bare))) /\
  forall n, color_of g' n = color_of bare n.
Proof.
  apply (create_cultural_network_draws_row_by_row (mk_world bare [])
           (fun k => Z.of_nat k) 2 3 bare_distinct).
  lia.
Defined.

Lemma common_features_range_witness :
  exists c,
    common_features 0%nat 1%nat (mk_world two_nodes [])
    = (Ok (Some c), mk_world two_nodes []) /\
    0 <= c <= 3 /\
    (c = 3 <-> culture_of two_nodes 0%nat = culture_of two_nodes 1%nat).
Proof.
  apply (common_features_range (mk_world two_nodes []) 3 5 0%nat 1%nat
           numpy_exact_on_int64 eq_refl eq_refl two_nodes_invariants);
    simpl; auto.
Defined.

Lemma node_without_culture_raises_witness :
  network_cultures last_seen (mk_world newcomer [])
  = (Raise KeyError, mk_world newcomer []) /\
  cultural_sizes_and_max last_seen (mk_world newcomer [])
  = (Raise KeyError, mk_world newcomer []) /\
  colorea_nodos last_seen (mk_world newcomer [])
  = (Raise KeyError, mk_world newcomer []) /\
  exists e, fixed_point (mk_world newcomer [])
            = (Raise e, mk_world newcomer []).
Proof.
  apply (node_without_culture_raises (mk_world newcomer []) last_seen 2%nat
           eq_refl); [simpl; auto | reflexivity].
Defined.

Lemma network_cultures_lists_distinct_cultures_witness :
  exists enum,
    network_cultures last_seen (mk_world settled [])
    = (Ok (Some (enum, Z.of_nat (length enum))), mk_world settled []) /\
    NoDup enum /\
    (forall c, In c enum <->
               exists n, In n (node_ids settled) /\
                         culture_of settled n = Some c) /\
    (length enum <= length (nodes settled))%nat /\
    (nodes settled <> [] -> (1 <= length enum)%nat).
Proof.
  apply (network_cultures_lists_distinct_cultures last_seen last_seen_NoDup
           last_seen_In (mk_world settled []) eq_refl).
  intros n Hn. by_cases Hn; eexists; reflexivity.
Defined.

Lemma cultural_sizes_and_max_aligned_witness :
  exists enum k sizes mx,
    network_cultures last_seen (mk_world two_nodes [])
    = (Ok (Some (enum, k)), mk_world two_nodes []) /\
    cultural_sizes_and_max last_seen (mk_world two_nodes [])
    = (Ok (Some (sizes, mx)), mk_world two_nodes []) /\
    sizes = map (cluster_size two_nodes) enum /\
    Forall (fun s => 1 <= s <= mx) sizes /\
    In mx sizes /\
    mx <= Z.of_nat (length (nodes two_nodes)).
Proof.
  apply (cultural_sizes_and_max_aligned last_seen last_seen_In
           (mk_world two_nodes []) eq_refl two_nodes_cultured).
  discriminate.
Defined.

Lemma colorea_nodos_labels_clusters_witness :
  exists enum k colors g',
    network_cultures last_seen (mk_world two_nodes [])
    = (Ok (Some (enum, k)), mk_world two_nodes []) /\
    colorea_nodos last_seen (mk_world two_nodes [])
    = (Ok (Some colors), mk_world g' []) /\
    (forall n m, In n (node_ids two_nodes) -> In m (node_ids two_nodes) ->
       (color_of g' n = color_of g' m <->
        culture_of two_nodes n = culture_of two_nodes m)) /\
    (forall n, In n (node_ids two_nodes) ->
       exists i, color_of g' n = Some i /\ Z.of_nat i < k).
Proof.
  exact (colorea_nodos_labels_clusters last_seen last_seen_In
           (mk_world two_nodes []) eq_refl two_nodes_cultured).
Defined.

Lemma colorea_nodos_twice_witness :
  let r1 := colorea_nodos last_seen (mk_world two_nodes []) in
  let r2 := colorea_nodos last_seen (snd r1) in
  (exists colors, fst r1 = Ok (Some colors) /\ fst r2 = Ok (Some colors)) /\
  (forall n, color_of (self (snd r2)) n = color_of (self (snd r1)) n) /\
  (forall n, culture_of (self (snd r2)) n = culture_of two_nodes n).
Proof.
  exact (colorea_nodos_twice last_seen last_seen_In
           (mk_world two_nodes []) eq_refl two_nodes_cultured).
Defined.

Lemma not_fixed_point_can_change_witness :
  exists rnd,
    self (snd (step rnd false (mk_world two_nodes []))) <> two_nodes.
Proof.
  exact (not_fixed_point_can_change (mk_world two_nodes []) 3 5
           numpy_exact_on_int64 eq_refl
           eq_refl two_nodes_invariants two_nodes_graph_ok eq_refl).
Defined.

Lemma consensus_is_fixed_point_witness :
  fixed_point (mk_world agreed []) = (Ok (Some true), mk_world agreed []).
Proof.
  apply (consensus_is_fixed_point (mk_world agreed []) 3 5 [1; 2; 3]
           eq_refl agreed_invariants agreed_graph_ok).
  intros n Hn. by_cases Hn; reflexivity.
Defined.

Lemma list_cultures_prints_every_node_witness :
  list_cultures (mk_world two_nodes [])
  = (Ok tt,
     mk_world two_nodes
       ([] ++ map (fun n => culture_line n (vector_of two_nodes n))
                  (node_ids two_nodes))).
Proof.
  exact (list_cultures_prints_every_node (mk_world two_nodes [])
           eq_refl two_nodes_cultured).
Defined.

Lemma list_cultures_stops_at_missing_culture_witness :
  list_cultures (mk_world newcomer [])
  = (Raise KeyError,
     mk_world newcomer
       ([] ++ map (fun m => culture_line m (vector_of newcomer m))
                  [0%nat; 1%nat])).
Proof.
  apply (list_cultures_stops_at_missing_culture (mk_world newcomer [])
           [0%nat; 1%nat] [] 2%nat eq_refl eq_refl); [|reflexivity].
  intros m Hm. by_cases Hm; eexists; reflexivity.
Defined.

Lemma step_returns_with_a_partner_witness :
  fst (step (mk_draws 0 0 0 0) true (mk_world two_nodes []))
  = Ok (self (snd (step (mk_draws 0 0 0 0) true (mk_world two_nodes [])))).
Proof.
  apply (step_returns_with_a_partner (mk_world two_nodes [])
           (mk_draws 0 0 0 0) true 3 5 0%nat [1%nat]
           eq_refl two_nodes_invariants two_nodes_graph_ok);
    [lia | reflexivity | reflexivity | discriminate].
Defined.
